(** * together_app: image-type detection and response normalisation

    A shallow embedding of [src/openai_image_gen_edit/together_app.py]:
    the magic-byte detector [detect_image_type], the three tool handlers
    [generate_image], [edit_image] and [describe_image], and the parts of
    Python's [base64]/[binascii] modules they call. *)

From Stdlib Require Import ZArith Ascii String.
From Stdlib.Strings Require Import Byte.
From stdpp Require Import base strings list gmap pretty.

Local Open Scope Z_scope.

(** ** Python values *)

(** A Python [bytes] object. *)
Abbreviation bytes := (list byte).

(** Exceptions that cross the handlers.  [binascii.Error] is a subclass of
    [ValueError] in Python; collaborators (the upstream client, [requests],
    [open]) raise exceptions of classes of their own, kept by class name:
    [ForeignError] for a class that derives from [Exception],
    [ForeignBaseException] for one that derives from [BaseException] only
    ([KeyboardInterrupt], [SystemExit], [GeneratorExit],
    [asyncio.CancelledError]). *)
Inductive exn : Type :=
  | ValueError (msg : string)
  | BinasciiError (msg : string)
  | IndexError (msg : string)
  | TypeError (msg : string)
  | ForeignError (cls msg : string)
  | ForeignBaseException (cls msg : string).

(** [str(e)] *)
Definition exn_str (e : exn) : string :=
  match e with
  | ValueError m | BinasciiError m | IndexError m | TypeError m
  | ForeignError _ m | ForeignBaseException _ m => m
  end.

(** [isinstance(e, Exception)]: what an [except Exception] clause catches. *)
Definition is_Exception (e : exn) : bool :=
  match e with
  | ForeignBaseException _ _ => false
  | _ => true
  end.

Inductive result (A : Type) : Type :=
  | Ok (a : A)
  | Raise (e : exn).
Arguments Ok {A} a.
Arguments Raise {A} e.

#[global] Instance byte_eq_dec : EqDecision byte := Byte.byte_eq_dec.

(** Code point of a character, and the byte an [int] is stored as in an
    [unsigned char]. *)
Definition ord (c : ascii) : Z := Z.of_N (N_of_ascii c).
Definition uchar (z : Z) : byte :=
  byte_of_ascii (ascii_of_N (Z.to_N (Z.land z 255))).
Definition byte_val (b : byte) : Z := Z.of_N (Byte.to_N b).

(** [s[:n]] on a [str] and [b[lo:hi]] on [bytes], for the non-negative
    literal bounds the source uses: slices clip, they never raise. *)
Definition str_prefix (n : nat) (s : string) : string := String.substring 0 n s.
Definition bytes_slice (lo hi : nat) (b : bytes) : bytes :=
  take (hi - lo) (drop lo b).

(** [b.startswith(p)] *)
Fixpoint startswith (b p : bytes) : bool :=
  match p, b with
  | [], _ => true
  | _ :: _, [] => false
  | y :: p', x :: b' => Byte.eqb x y && startswith b' p'
  end.

(** [b == p] on [bytes] *)
Definition bytes_eqb (b p : bytes) : bool := bool_decide (b = p).

(** ** [binascii]: the decoder behind [base64.b64decode]

    [base64.b64decode(s)] with a [str] argument first encodes it as ASCII
    (raising [ValueError] on any other character) and then calls
    [binascii.a2b_base64] in its default, non-strict mode, which is the
    loop transcribed here (CPython 3.11 and later): characters outside the
    alphabet are skipped, a pad sequence that completes a quad ends the
    input, and leftover data characters are an error. *)
Module Binascii.

Definition BASE64_PAD : Z := 61.

(** [table_a2b_base64]: the 6-bit value of an alphabet character, 255
    (the [unsigned char] holding -1) for every other one. *)
Definition table_a2b_base64 (c : Z) : Z :=
  if (65 <=? c) && (c <=? 90) then c - 65
  else if (97 <=? c) && (c <=? 122) then c - 71
  else if (48 <=? c) && (c <=? 57) then c + 4
  else if c =? 43 then 62
  else if c =? 47 then 63
  else 255.

(** How the decoding loop is left: by [goto done] on a completed pad
    sequence, or by running out of input with [quad_pos] pending. *)
Inductive loop_exit : Type :=
  | ExitDone (bin_data : bytes)
  | ExitEnd (quad_pos : Z) (bin_data : bytes).

Fixpoint a2b_loop (ascii_data : list Z) (quad_pos leftchar pads : Z)
    (bin_data : bytes) : loop_exit :=
  match ascii_data with
  | [] => ExitEnd quad_pos bin_data
  | this_ch :: rest =>
    if this_ch =? BASE64_PAD then
      if 2 <=? quad_pos then
        (* [quad_pos + ++pads >= 4] *)
        if 4 <=? quad_pos + (pads + 1) then ExitDone bin_data
        else a2b_loop rest quad_pos leftchar (pads + 1) bin_data
      else a2b_loop rest quad_pos leftchar pads bin_data
    else
      let this_ch := table_a2b_base64 this_ch in
      if 64 <=? this_ch then a2b_loop rest quad_pos leftchar pads bin_data
      else
        (* [pads = 0; switch (quad_pos)] *)
        if quad_pos =? 0 then
          a2b_loop rest 1 this_ch 0 bin_data
        else if quad_pos =? 1 then
          a2b_loop rest 2 (Z.land this_ch 15) 0
            (bin_data ++ [uchar (Z.lor (Z.shiftl leftchar 2) (Z.shiftr this_ch 4))])
        else if quad_pos =? 2 then
          a2b_loop rest 3 (Z.land this_ch 3) 0
            (bin_data ++ [uchar (Z.lor (Z.shiftl leftchar 4) (Z.shiftr this_ch 2))])
        else
          a2b_loop rest 0 0 0
            (bin_data ++ [uchar (Z.lor (Z.shiftl leftchar 6) this_ch)])
  end.

Definition a2b_base64 (ascii_data : list Z) : result bytes :=
  match a2b_loop ascii_data 0 0 0 [] with
  | ExitDone bin_data => Ok bin_data
  | ExitEnd quad_pos bin_data =>
    if quad_pos =? 0 then Ok bin_data
    else if quad_pos =? 1 then
      Raise (BinasciiError
        ("Invalid base64-encoded string: number of data characters ("
         +:+ pretty (Z.of_nat (length bin_data) / 3 * 4 + 1)
         +:+ ") cannot be 1 more than a multiple of 4"))
    else Raise (BinasciiError "Incorrect padding")
  end.

(** [table_b2a_base64] *)
Definition table_b2a_base64 (v : Z) : ascii :=
  ascii_of_N (Z.to_N
    (if v <? 26 then v + 65
     else if v <? 52 then v + 71
     else if v <? 62 then v - 4
     else if v =? 62 then 43 else 47)).

(** [b2a_base64(data, newline=False)]: the inner [while (leftbits >= 6)]
    runs once or twice per input byte and is written out. *)
Fixpoint b2a_loop (bin_data : bytes) (leftchar leftbits : Z) : list ascii :=
  match bin_data with
  | [] =>
    if leftbits =? 2 then
      [table_b2a_base64 (Z.shiftl (Z.land leftchar 3) 4); "="; "="]%char
    else if leftbits =? 4 then
      [table_b2a_base64 (Z.shiftl (Z.land leftchar 15) 2); "="]%char
    else []
  | b :: rest =>
    let leftchar := Z.land (Z.lor (Z.shiftl leftchar 8) (byte_val b)) (2 ^ 32 - 1) in
    let leftbits := leftbits + 8 in
    let c1 := table_b2a_base64 (Z.land (Z.shiftr leftchar (leftbits - 6)) 63) in
    let leftbits := leftbits - 6 in
    if 6 <=? leftbits then
      c1 :: table_b2a_base64 (Z.land (Z.shiftr leftchar (leftbits - 6)) 63)
         :: b2a_loop rest leftchar (leftbits - 6)
    else c1 :: b2a_loop rest leftchar leftbits
  end.

Definition b2a_base64 (bin_data : bytes) : list ascii := b2a_loop bin_data 0 0.

End Binascii.

(** ** [base64] *)

(** [base64.b64decode(s)] for a [str] argument. *)
Definition b64decode (s : string) : result bytes :=
  let chars := String.list_ascii_of_string s in
  if forallb (fun c => ord c <? 128) chars then
    Binascii.a2b_base64 (ord <$> chars)
  else Raise (ValueError "string argument should contain only ASCII characters").

(** [base64.b64encode(data).decode('utf-8')] *)
Definition b64encode (data : bytes) : string :=
  String.string_of_list_ascii (Binascii.b2a_base64 data).

(** ** The detector *)

(** [b"..."] literals of the source. *)
Definition PNG_SIGNATURE : bytes :=
  x89 :: String.list_byte_of_string "PNG" ++ [x0d; x0a; x1a; x0a].
Definition JPEG_SIGNATURE : bytes := [xff; xd8; xff].
Definition RIFF : bytes := String.list_byte_of_string "RIFF".
Definition WEBP : bytes := String.list_byte_of_string "WEBP".

Definition detect_image_type (b64string : string) : result string :=
  match b64decode (str_prefix 32 b64string) with
  | Raise e => Raise e
  | Ok header_bytes =>
    if startswith header_bytes PNG_SIGNATURE then Ok "png"
    else if startswith header_bytes JPEG_SIGNATURE then Ok "jpeg"
    else if startswith header_bytes RIFF
            && bytes_eqb (bytes_slice 8 12 header_bytes) WEBP then Ok "webp"
    else Ok "png"
  end.

(** ** Collaborators of the handlers *)

(** One image of an upstream response: [image.url] and [image.b64_json]
    are optional strings. *)
Record Image : Type := mkImage {
  url : option string;
  b64_json : option string
}.

(** The response of [client.images.generate]; [response.data]. *)
Record ImagesResponse : Type := mkImagesResponse {
  response_data : list Image
}.

(** Keyword arguments of [client.images.generate]. *)
Record GenerateRequest : Type := mkGenerateRequest {
  req_prompt : string;
  req_model : string;
  req_condition_image : option string;
  req_width : Z;
  req_height : Z;
  req_steps : Z;
  req_n : Z
}.

(** Arguments of [client.chat.completions.create]: the model, and the one
    user message with its image URL and its text. *)
Record ChatRequest : Type := mkChatRequest {
  chat_model : string;
  chat_image_url : string;
  chat_text : string
}.

(** [message.content] of a chat choice: the client types it as a string, a
    list of content parts (each kept as an opaque string here) or [None]. *)
Inductive message_content : Type :=
  | ContentText (text : string)
  | ContentParts (parts : list string)
  | ContentNone.

(** [len(content)]: undefined on [None]. *)
Definition content_len (content : message_content) : option nat :=
  match content with
  | ContentText text => Some (String.length text)
  | ContentParts parts => Some (length parts)
  | ContentNone => None
  end.

(** [mcp.types.ImageContent] as the handlers build it. *)
Record ImageContent : Type := mkImageContent {
  type : string;
  data : string;
  mimeType : string;
  annotations : gmap string string
}.

(** Everything outside the module: the three model identifiers read from
    the environment at import, the upstream client, [requests.get], the
    file system and [uuid.uuid4].  A handler calls each collaborator at
    most once, so a function of the arguments loses no behaviour; the
    [k]-th identifier drawn in a process is [uuid4_hex k]. *)
Record World : Type := mkWorld {
  TEXT2IMAGE_MODEL : string;
  IMAGE2IMAGE_MODEL : string;
  IMAGE2TEXT_MODEL : string;
  images_generate : GenerateRequest → result ImagesResponse;
  (** [response.choices], each reduced to its [message.content] *)
  chat_completions_create : ChatRequest → result (list message_content);
  (** [requests.get(url).content] *)
  requests_get : string → result bytes;
  (** [open(path, "rb")] followed by [f.read()] *)
  read_file : string → result bytes;
  uuid4_hex : nat → string
}.

Inductive level : Type := INFO | WARNING | ERROR.

(** What a handler does to the outside, in order. *)
Inductive event : Type :=
  | Log (lvl : level) (msg : string)
  | ImagesGenerate (req : GenerateRequest)
  | ChatCompletionsCreate (req : ChatRequest)
  | RequestsGet (target : string)
  | OpenRead (path : string)
  | Uuid4.

Record state : Type := mkState {
  trace : list event;
  uuids_drawn : nat
}.

(** ** A state-and-exception monad for the handlers *)

Definition M (A : Type) : Type := state → result A * state.

#[global] Instance M_ret : MRet M := λ A a st, (Ok a, st).
#[global] Instance M_bind : MBind M := λ A B f m st,
  match m st with
  | (Ok a, st') => f a st'
  | (Raise e, st') => (Raise e, st')
  end.

Definition raise {A} (e : exn) : M A := λ st, (Raise e, st).

Definition emit (ev : event) : M () := λ st,
  (Ok (), {| trace := trace st ++ [ev]; uuids_drawn := uuids_drawn st |}).

(** A call to a collaborator: recorded, then answered by the world. *)
Definition call {A} (ev : event) (answer : result A) : M A := λ st,
  (answer, {| trace := trace st ++ [ev]; uuids_drawn := uuids_drawn st |}).

(** A pure computation that may raise. *)
Definition lift {A} (r : result A) : M A := λ st, (r, st).

Definition logger_info (msg : string) : M () := emit (Log INFO msg).
Definition logger_warning (msg : string) : M () := emit (Log WARNING msg).
Definition logger_error (msg : string) : M () := emit (Log ERROR msg).

(** [uuid.uuid4().hex] *)
Definition uuid4 (w : World) : M string := λ st,
  (Ok (uuid4_hex w (uuids_drawn st)),
   {| trace := trace st ++ [Uuid4]; uuids_drawn := S (uuids_drawn st) |}).

(** [try: body except Exception as e: handler(e); raise]: an exception
    that is no instance of [Exception] passes through uncaught. *)
Definition try_reraise {A} (body : M A) (handler : exn → M ()) : M A := λ st,
  match body st with
  | (Ok a, st') => (Ok a, st')
  | (Raise e, st') =>
    if is_Exception e then
      match handler e st' with
      | (Ok _, st'') => (Raise e, st'')
      | (Raise e', st'') => (Raise e', st'')
      end
    else (Raise e, st')
  end.

(** Truth value of an optional string: [None] and [""] are false. *)
Definition truthy (o : option string) : bool :=
  match o with
  | Some s => negb (String.eqb s "")
  | None => false
  end.

(** ** The tool handlers *)

Definition generate_image (w : World) (prompt : string) : M ImageContent :=
  logger_info ("generate_image called - prompt: " +:+ str_prefix 100 prompt
               +:+ "... - model: " +:+ TEXT2IMAGE_MODEL w);;
  try_reraise
    (let req := {| req_prompt := prompt; req_model := TEXT2IMAGE_MODEL w;
                   req_condition_image := None;
                   req_width := 1024; req_height := 1792;
                   req_steps := 4; req_n := 1 |} in
     response ← call (ImagesGenerate req) (images_generate w req);
     logger_info ("API response received - images: "
                  +:+ pretty (length (response_data response)));;
     match response_data response with
     | [] =>
       logger_warning "No images generated in response";;
       raise (ValueError "No images generated")
     | image :: _ =>
       case_id ← uuid4 w;
       image_base64 ←
         (if truthy (url image) then
            content ← call (RequestsGet (default "" (url image)))
                           (requests_get w (default "" (url image)));
            mret (b64encode content)
          else if truthy (b64_json image) then
            mret (default "" (b64_json image))
          else raise (ValueError "No image data in response"));
       output_format ← lift (detect_image_type image_base64);
       let result :=
         {| type := "image";
            data := image_base64;
            mimeType := "image/" +:+ output_format;
            annotations := <["prompt" := prompt]> (<["case_id" := case_id]> ∅) |} in
       logger_info ("generate_image completed - case_id: " +:+ case_id);;
       mret result
     end)
    (λ e, logger_error ("generate_image failed - error: " +:+ exn_str e)).

Definition edit_image (w : World) (image_path prompt : string) : M ImageContent :=
  logger_info ("edit_image called - image_path: " +:+ image_path
               +:+ ", prompt: " +:+ str_prefix 100 prompt
               +:+ "... - model: " +:+ IMAGE2IMAGE_MODEL w);;
  try_reraise
    (image_data ← call (OpenRead image_path) (read_file w image_path);
     let image_base64 := b64encode image_data in
     let req := {| req_prompt := prompt; req_model := IMAGE2IMAGE_MODEL w;
                   req_condition_image := Some image_base64;
                   req_width := 1024; req_height := 1024;
                   req_steps := 4; req_n := 1 |} in
     response ← call (ImagesGenerate req) (images_generate w req);
     logger_info ("API response received - images: "
                  +:+ pretty (length (response_data response)));;
     match response_data response with
     | [] =>
       logger_warning "No images generated in response";;
       raise (ValueError "No images generated")
     | image :: _ =>
       case_id ← uuid4 w;
       result_base64 ←
         (if truthy (url image) then
            content ← call (RequestsGet (default "" (url image)))
                           (requests_get w (default "" (url image)));
            mret (b64encode content)
          else if truthy (b64_json image) then
            mret (default "" (b64_json image))
          else raise (ValueError "No image data in response"));
       output_format ← lift (detect_image_type result_base64);
       let result :=
         {| type := "image";
            data := result_base64;
            mimeType := "image/" +:+ output_format;
            annotations := <["source_image" := image_path]>
                             (<["prompt" := prompt]> (<["case_id" := case_id]> ∅)) |} in
       logger_info ("edit_image completed - case_id: " +:+ case_id);;
       mret result
     end)
    (λ e, logger_error ("edit_image failed - error: " +:+ exn_str e)).

Definition describe_image (w : World) (image_path : string) : M message_content :=
  logger_info ("describe_image called - image_path: " +:+ image_path
               +:+ " - model: " +:+ IMAGE2TEXT_MODEL w);;
  try_reraise
    (image_data ← call (OpenRead image_path) (read_file w image_path);
     let image_base64 := b64encode image_data in
     image_type ← lift (detect_image_type image_base64);
     let image_url := "data:image/" +:+ image_type +:+ ";base64," +:+ image_base64 in
     let req := {| chat_model := IMAGE2TEXT_MODEL w;
                   chat_image_url := image_url;
                   chat_text := "Describe this image in detail." |} in
     choices ← call (ChatCompletionsCreate req) (chat_completions_create w req);
     match choices with
     | [] => raise (IndexError "list index out of range")
     | description :: _ =>
       match content_len description with
       | None => raise (TypeError "object of type 'NoneType' has no len()")
       | Some n =>
         logger_info ("describe_image completed - description length: "
                      +:+ pretty n);;
         mret description
       end
     end)
    (λ e, logger_error ("describe_image failed - error: " +:+ exn_str e)).

(** ** Start-up: [setup_logging] and the module body *)

(** What the process finds when the module is imported: its pid, the
    environment, which paths exist, what [logging.FileHandler(path,
    mode='a')] does on each path, and whether the constructors [FastMCP]
    and [Together] raise.  [PermissionError] is a subclass of [OSError]:
    the outcome of opening a log file records whether the exception raised
    is an [OSError] or not. *)
Inductive handler_outcome : Type :=
  | Opened
  | RaisedOSError (e : exn)
  | RaisedOther (e : exn).

Record Host : Type := mkHost {
  getpid : nat;
  environ : string → option string;
  path_exists : string → bool;
  file_handler : string → handler_outcome;
  new_fastmcp : option exn;
  new_together : option exn
}.

(** Exceptions of the start-up code: the [RuntimeError]s of
    [setup_logging], the [KeyError] of [os.environ[key]], and whatever a
    collaborator raises. *)
Inductive startup_exn : Type :=
  | RuntimeError (msg : string)
  | KeyError (key : string)
  | Propagated (e : exn).

(** The logger of the module: its level and the files of its handlers. *)
Record Logger : Type := mkLogger {
  logger_level : option level;
  logger_handlers : list string
}.

Inductive startup_event : Type :=
  | FileHandlerCreate (path : string)
  | LogRecord (path : string) (lvl : level) (msg : string)
  | StderrPrint (msg : string).

(** [s.startswith("/")] and [s.endswith("/")] *)
Definition starts_with_sep (s : string) : bool :=
  match s with
  | String c _ => Ascii.eqb c "/"
  | EmptyString => false
  end.
Fixpoint ends_with_sep (s : string) : bool :=
  match s with
  | EmptyString => false
  | String c EmptyString => Ascii.eqb c "/"
  | String _ s' => ends_with_sep s'
  end.

(** [os.path.join(a, b)] of [posixpath] *)
Definition os_path_join (a b : string) : string :=
  if starts_with_sep b then b
  else if String.eqb a "" || ends_with_sep a then a +:+ b
  else a +:+ "/" +:+ b.

(** [logger.setLevel(lvl)], [logger.handlers.clear()] and
    [logger.addHandler(file_handler)] on the logger object. *)
Definition setLevel (lvl : level) (logger : Logger) : Logger :=
  {| logger_level := Some lvl; logger_handlers := logger_handlers logger |}.
Definition handlers_clear (logger : Logger) : Logger :=
  {| logger_level := logger_level logger; logger_handlers := [] |}.
Definition addHandler (log_file : string) (logger : Logger) : Logger :=
  {| logger_level := logger_level logger;
     logger_handlers := logger_handlers logger ++ [log_file] |}.

(** The [for log_file in log_locations] loop of [setup_logging]: the
    first file that opens gets the handler and the start-up record, and the
    function returns; an [OSError] moves on to the next location, any other
    exception leaves the function; when no location is left the loop ends
    ([None]). *)
Fixpoint try_log_locations (h : Host) (logger : Logger) (log_locations : list string)
    (evs : list startup_event)
    : (startup_exn + option Logger) * list startup_event :=
  match log_locations with
  | [] => (inr None, evs)
  | log_file :: rest =>
    match file_handler h log_file with
    | Opened =>
      (inr (Some (addHandler log_file logger)),
       evs ++ [FileHandlerCreate log_file;
               LogRecord log_file INFO
                 ("=== MCP Server Started (PID: " +:+ pretty (getpid h)
                  +:+ ", Log: " +:+ log_file +:+ ") ===")])
    | RaisedOSError _ =>
      try_log_locations h logger rest (evs ++ [FileHandlerCreate log_file])
    | RaisedOther e => (inl (Propagated e), evs ++ [FileHandlerCreate log_file])
    end
  end.

(** [setup_logging()], from the state the logger
    [logging.getLogger(__name__)] is in when it is called: the function
    returns the logger or raises, and leaves the events in order. *)
Definition setup_logging (h : Host) (existing : Logger)
    : (startup_exn + Logger) * list startup_event :=
  let pid := getpid h in
  let logger := setLevel INFO existing in
  let logger := handlers_clear logger in
  let agent_shared_dir := environ h "AGENT_SHARED_DIR" in
  if negb (truthy agent_shared_dir) then
    (inl (RuntimeError "AGENT_SHARED_DIR environment variable is not set"), [])
  else
    let agent_shared_dir := default "" agent_shared_dir in
    if negb (path_exists h agent_shared_dir) then
      (inl (RuntimeError ("AGENT_SHARED_DIR does not exist: " +:+ agent_shared_dir)), [])
    else
      let log_locations :=
        [os_path_join agent_shared_dir
           ("mcp_together_image_gen_" +:+ pretty pid +:+ ".log");
         "/tmp/mcp_together_image_gen_" +:+ pretty pid +:+ ".log"] in
      match try_log_locations h logger log_locations [] with
      | (inl e, evs) => (inl e, evs)
      | (inr (Some logger), evs) => (inr logger, evs)
      | (inr None, evs) =>
        (inr logger,
         evs ++ [StderrPrint ("Failed to setup file logging in " +:+ agent_shared_dir
                              +:+ " or /tmp/")])
      end.

(** The two log locations of a process. *)
Definition shared_log (h : Host) (agent_shared_dir : string) : string :=
  os_path_join agent_shared_dir
    ("mcp_together_image_gen_" +:+ pretty (getpid h) +:+ ".log").
Definition tmp_log (h : Host) : string :=
  "/tmp/mcp_together_image_gen_" +:+ pretty (getpid h) +:+ ".log".

Definition is_file_handler_create (path : string) (ev : startup_event) : bool :=
  match ev with
  | FileHandlerCreate p => String.eqb p path
  | _ => false
  end.

(** The model identifiers the module body reads, in the order it reads
    them, and the first of them that the environment lacks. *)
Definition model_keys : list string :=
  ["TOGETHER_IMAGE2IMAGE_MODEL_ID"; "TOGETHER_IMAGE2TEXT_MODEL_ID";
   "TOGETHER_TEXT2IMAGE_MODEL_ID"].
Definition first_missing (h : Host) : option string :=
  List.find (λ key, match environ h key with None => true | Some _ => false end)
    model_keys.

(** [os.environ[key]] *)
Definition environ_get (h : Host) (key : string) : startup_exn + string :=
  match environ h key with
  | Some v => inr v
  | None => inl (KeyError key)
  end.

(** What the module body leaves behind: the logger and the three model
    identifiers. *)
Record Settings : Type := mkSettings {
  settings_logger : Logger;
  settings_image2image : string;
  settings_image2text : string;
  settings_text2image : string
}.

(** The module body, lines 60 to 66, in order. *)
Definition module_body (h : Host) (existing : Logger)
    : (startup_exn + Settings) * list startup_event :=
  match setup_logging h existing with
  | (inl e, evs) => (inl e, evs)
  | (inr logger, evs) =>
    match new_fastmcp h with
    | Some e => (inl (Propagated e), evs)
    | None =>
      match new_together h with
      | Some e => (inl (Propagated e), evs)
      | None =>
        match environ_get h "TOGETHER_IMAGE2IMAGE_MODEL_ID" with
        | inl e => (inl e, evs)
        | inr image2image =>
          match environ_get h "TOGETHER_IMAGE2TEXT_MODEL_ID" with
          | inl e => (inl e, evs)
          | inr image2text =>
            match environ_get h "TOGETHER_TEXT2IMAGE_MODEL_ID" with
            | inl e => (inl e, evs)
            | inr text2image =>
              (inr {| settings_logger := logger;
                      settings_image2image := image2image;
                      settings_image2text := image2text;
                      settings_text2image := text2image |}, evs)
            end
          end
        end
      end
    end
  end.

(** The world the handlers run in after the module body: the model
    identifiers are those it read; the other collaborators are as given. *)
Definition world_of_settings (cfg : Settings) (w : World) : World :=
  {| TEXT2IMAGE_MODEL := settings_text2image cfg;
     IMAGE2IMAGE_MODEL := settings_image2image cfg;
     IMAGE2TEXT_MODEL := settings_image2text cfg;
     images_generate := images_generate w;
     chat_completions_create := chat_completions_create w;
     requests_get := requests_get w;
     read_file := read_file w;
     uuid4_hex := uuid4_hex w |}.

(** A host whose shared directory is [/shared], with all model
    identifiers set, on which log files open as [outcome] says. *)
Definition example_host (outcome : string → handler_outcome) : Host :=
  {| getpid := 4242;
     environ := λ key,
       if String.eqb key "AGENT_SHARED_DIR" then Some "/shared"
       else if String.eqb key "TOGETHER_IMAGE2IMAGE_MODEL_ID" then Some "image2image"
       else if String.eqb key "TOGETHER_IMAGE2TEXT_MODEL_ID" then Some "image2text"
       else if String.eqb key "TOGETHER_TEXT2IMAGE_MODEL_ID" then Some "text2image"
       else None;
     path_exists := λ path, String.eqb path "/shared";
     file_handler := outcome;
     new_fastmcp := None;
     new_together := None |}.

Definition with_environ (h : Host) (env : string → option string) : Host :=
  {| getpid := getpid h;
     environ := env;
     path_exists := path_exists h;
     file_handler := file_handler h;
     new_fastmcp := new_fastmcp h;
     new_together := new_together h |}.

Definition permission_denied : exn :=
  ForeignError "PermissionError" "[Errno 13] Permission denied".
Definition stale_logger : Logger :=
  {| logger_level := None; logger_handlers := ["/var/log/old.log"; "/var/log/older.log"] |}.

(** A host on which only the log file under [/tmp] opens, and what
    [setup_logging] gives there. *)
Definition tmp_only_host : Host :=
  example_host (λ path,
    if String.eqb path "/tmp/mcp_together_image_gen_4242.log" then Opened
    else RaisedOSError permission_denied).
Definition tmp_logger : Logger :=
  {| logger_level := Some INFO;
     logger_handlers := ["/tmp/mcp_together_image_gen_4242.log"] |}.
Definition tmp_events : list startup_event :=
  [FileHandlerCreate "/shared/mcp_together_image_gen_4242.log";
   FileHandlerCreate "/tmp/mcp_together_image_gen_4242.log";
   LogRecord "/tmp/mcp_together_image_gen_4242.log" INFO
     "=== MCP Server Started (PID: 4242, Log: /tmp/mcp_together_image_gen_4242.log) ==="].

(** A host on which no log file opens. *)
Definition no_log_host : Host := example_host (λ _, RaisedOSError permission_denied).

(** A host whose environment lacks the last two model identifiers, on
    which every log file opens, and what [setup_logging] gives there. *)
Definition missing_key_host : Host :=
  with_environ (example_host (λ _, Opened))
    (λ key,
       if String.eqb key "AGENT_SHARED_DIR" then Some "/shared"
       else if String.eqb key "TOGETHER_IMAGE2IMAGE_MODEL_ID" then Some "image2image"
       else None).
Definition shared_logger : Logger :=
  {| logger_level := Some INFO;
     logger_handlers := ["/shared/mcp_together_image_gen_4242.log"] |}.
Definition shared_events : list startup_event :=
  [FileHandlerCreate "/shared/mcp_together_image_gen_4242.log";
   LogRecord "/shared/mcp_together_image_gen_4242.log" INFO
     "=== MCP Server Started (PID: 4242, Log: /shared/mcp_together_image_gen_4242.log) ==="].
Definition example_settings : Settings :=
  {| settings_logger := shared_logger;
     settings_image2image := "image2image";
     settings_image2text := "image2text";
     settings_text2image := "text2image" |}.

(** ** Specification-level notions *)

(** A base64-encoded string in the sense of RFC 4648, section 4 (what
    [b64encode] produces): quads of alphabet characters, the last of
    which may end in one or two pad characters. *)
Definition is_b64_char (c : ascii) : bool :=
  Binascii.table_a2b_base64 (ord c) <? 64.
Definition is_pad (c : ascii) : bool := ord c =? Binascii.BASE64_PAD.

Fixpoint is_base64 (l : list ascii) : bool :=
  match l with
  | [] => true
  | a :: b :: c :: d :: rest =>
    is_b64_char a && is_b64_char b &&
    match rest with
    | [] => (is_b64_char c && (is_b64_char d || is_pad d)) || (is_pad c && is_pad d)
    | _ :: _ => is_b64_char c && is_b64_char d && is_base64 rest
    end
  | _ => false
  end.

Definition base64_encoded (s : string) : Prop :=
  is_base64 (String.list_ascii_of_string s) = true.

(** Number of pad characters among the first [n] characters of [s]. *)
Definition pad_count (l : list ascii) : nat := length (filter (λ c, is_pad c = true) l).
Definition pads_in_prefix (n : nat) (s : string) : nat :=
  pad_count (take n (String.list_ascii_of_string s)).

(** The classification as the specification words it: magic numbers given
    byte by byte, "starts with" as a prefix, "bytes at offset 8-11" as four
    lookups, first match winning. *)
Definition spec_png_magic : bytes := [x89; x50; x4e; x47; x0d; x0a; x1a; x0a].
Definition spec_jpeg_magic : bytes := [xff; xd8; xff].
Definition spec_riff : bytes := [x52; x49; x46; x46].
Definition spec_webp_at_8 (h : bytes) : Prop :=
  h !! 8%nat = Some x57 ∧ h !! 9%nat = Some x45 ∧
  h !! 10%nat = Some x42 ∧ h !! 11%nat = Some x50.

Inductive spec_classification (h : bytes) : string → Prop :=
  | classify_png :
      spec_png_magic `prefix_of` h → spec_classification h "png"
  | classify_jpeg :
      ¬ spec_png_magic `prefix_of` h → spec_jpeg_magic `prefix_of` h →
      spec_classification h "jpeg"
  | classify_webp :
      ¬ spec_png_magic `prefix_of` h → ¬ spec_jpeg_magic `prefix_of` h →
      spec_riff `prefix_of` h → spec_webp_at_8 h →
      spec_classification h "webp"
  | classify_default :
      ¬ spec_png_magic `prefix_of` h → ¬ spec_jpeg_magic `prefix_of` h →
      ¬ (spec_riff `prefix_of` h ∧ spec_webp_at_8 h) →
      spec_classification h "png".

(** The spec's error kind [NoImageData]: the two [ValueError]s the image
    handlers raise themselves. *)
Definition NoImageData (e : exn) : Prop :=
  e = ValueError "No images generated" ∨ e = ValueError "No image data in response".

(** The image tools as the protocol layer sees them. *)
Inductive image_tool_call : Type :=
  | CallGenerate (prompt : string)
  | CallEdit (image_path prompt : string).

Definition run_image_tool (w : World) (c : image_tool_call) : M ImageContent :=
  match c with
  | CallGenerate prompt => generate_image w prompt
  | CallEdit image_path prompt => edit_image w image_path prompt
  end.

Definition call_prompt (c : image_tool_call) : string :=
  match c with CallGenerate p | CallEdit _ p => p end.

Definition initial_state : state := {| trace := []; uuids_drawn := 0 |}.

(** C1 as it is worded, at one input: the first 32 characters decode into
    a header of 24 bytes, which the detector classifies. *)
Definition header_of_24_classified (s : string) : Prop :=
  ∃ h fmt, b64decode (str_prefix 32 s) = Ok h ∧ length h = 24%nat
           ∧ detect_image_type s = Ok fmt ∧ spec_classification h fmt.

(** C7 as it is worded, for [generate_image]: an empty prompt makes the
    handler fail before the upstream endpoint is called. *)
Definition rejects_empty_prompt (w : World) : Prop :=
  ∀ st, (∃ e, fst (generate_image w "" st) = Raise e)
        ∧ ∀ req, ImagesGenerate req ∉ trace (snd (generate_image w "" st)).

(** ** The image tools as functions of what the collaborators answer *)

(** The keyword arguments each image tool calls the upstream with, and the
    answer of the upstream API to a tool call ([edit_image] reads the file
    at [image_path] first, and a failure to read it comes instead). *)
Definition generate_request (w : World) (prompt : string) : GenerateRequest :=
  {| req_prompt := prompt; req_model := TEXT2IMAGE_MODEL w;
     req_condition_image := None;
     req_width := 1024; req_height := 1792; req_steps := 4; req_n := 1 |}.

Definition edit_request (w : World) (image_data : bytes) (prompt : string)
    : GenerateRequest :=
  {| req_prompt := prompt; req_model := IMAGE2IMAGE_MODEL w;
     req_condition_image := Some (b64encode image_data);
     req_width := 1024; req_height := 1024; req_steps := 4; req_n := 1 |}.

Definition upstream_answer (w : World) (c : image_tool_call) : result ImagesResponse :=
  match c with
  | CallGenerate prompt => images_generate w (generate_request w prompt)
  | CallEdit image_path prompt =>
    match read_file w image_path with
    | Ok image_data => images_generate w (edit_request w image_data prompt)
    | Raise e => Raise e
    end
  end.

(** The outcome of an image tool as a function of what the collaborators
    answer: the buffer fetched for an image reference, the annotations of
    each tool, and the artifact built from the first reference. *)
Definition fetched_buffer (w : World) (image : Image) : result string :=
  if truthy (url image) then
    match requests_get w (default "" (url image)) with
    | Ok content => Ok (b64encode content)
    | Raise e => Raise e
    end
  else if truthy (b64_json image) then Ok (default "" (b64_json image))
  else Raise (ValueError "No image data in response").

Definition call_annotations (c : image_tool_call) (case_id : string)
    : gmap string string :=
  match c with
  | CallGenerate prompt => <["prompt" := prompt]> (<["case_id" := case_id]> ∅)
  | CallEdit image_path prompt =>
    <["source_image" := image_path]>
      (<["prompt" := prompt]> (<["case_id" := case_id]> ∅))
  end.

Definition image_tool_outcome (w : World) (c : image_tool_call) (case_id : string)
    : result ImageContent :=
  match upstream_answer w c with
  | Raise e => Raise e
  | Ok response =>
    match response_data response with
    | [] => Raise (ValueError "No images generated")
    | image :: _ =>
      match fetched_buffer w image with
      | Raise e => Raise e
      | Ok buffer =>
        match detect_image_type buffer with
        | Raise e => Raise e
        | Ok output_format =>
          Ok {| type := "image"; data := buffer;
                mimeType := "image/" +:+ output_format;
                annotations := call_annotations c case_id |}
        end
      end
    end
  end.

(** The artifact built from one image reference, as the specification
    lays it out: fetch the buffer (the body behind the URL, encoded, else
    the inline payload as it is, else NoImageData), detect its format, and
    assemble data, MIME type and annotations under the case id drawn. *)
Definition artifact_of_reference (w : World) (c : image_tool_call) (case_id : string)
    (image : Image) : result ImageContent :=
  match fetched_buffer w image with
  | Raise e => Raise e
  | Ok buffer =>
    match detect_image_type buffer with
    | Raise e => Raise e
    | Ok output_format =>
      Ok {| type := "image"; data := buffer;
            mimeType := "image/" +:+ output_format;
            annotations := call_annotations c case_id |}
    end
  end.

(** ** Worlds to run the handlers in *)

(** The base64 encoding of the 22 bytes of a PNG file's signature and of
    the start of its header chunk: 32 characters, two of them padding. *)
Definition png_22_bytes : string := "iVBORw0KGgoAAAANSUhEUgAAAAEAAA==".

Definition png_1x1 : string :=
  "iVBORw0KGgoAAAANSUhEUgAAAAEAAAABCAYAAAAfFcSJAAAADUlEQVR42mNk".

(** A world whose upstream answers every image request with [images],
    whose every URL serves the first bytes of a JPEG file and whose every
    file holds them. *)
Definition world_answering (images : list Image) : World :=
  {| TEXT2IMAGE_MODEL := "text2image";
     IMAGE2IMAGE_MODEL := "image2image";
     IMAGE2TEXT_MODEL := "image2text";
     images_generate := λ _, Ok {| response_data := images |};
     chat_completions_create := λ _, Ok [ContentText "a cat"];
     requests_get := λ _, Ok [xff; xd8; xff; xe0];
     read_file := λ _, Ok [xff; xd8; xff; xe0];
     uuid4_hex := λ k, "case" +:+ pretty k |}.

Definition inline_png : Image := {| url := None; b64_json := Some png_1x1 |}.
Definition remote_jpeg : Image :=
  {| url := Some "http://example/x.jpg"; b64_json := None |}.
Definition no_data : Image := {| url := None; b64_json := None |}.

Definition remote_jpeg_artifact : ImageContent :=
  {| type := "image";
     data := "/9j/4A==";
     mimeType := "image/jpeg";
     annotations := call_annotations (CallGenerate "a cat") "case0" |}.

Definition edited_artifact : ImageContent :=
  {| type := "image";
     data := png_1x1;
     mimeType := "image/png";
     annotations := call_annotations (CallEdit "/tmp/in.png" "add a hat") "case0" |}.

(** ** The tool surface *)

(** The three tools the server registers, and a call of any of them; the
    result of an image tool is an artifact, that of [describe_image] the
    content of a chat message. *)
Inductive tool_call : Type :=
  | ImageTool (c : image_tool_call)
  | DescribeTool (image_path : string).

Definition run_tool (w : World) (t : tool_call)
    : M (ImageContent + message_content) := λ st,
  match t with
  | ImageTool c =>
    match run_image_tool w c st with
    | (Ok art, st') => (Ok (inl art), st')
    | (Raise e, st') => (Raise e, st')
    end
  | DescribeTool image_path =>
    match describe_image w image_path st with
    | (Ok description, st') => (Ok (inr description), st')
    | (Raise e, st') => (Raise e, st')
    end
  end.

(** The name under which each handler logs. *)
Definition tool_name (t : tool_call) : string :=
  match t with
  | ImageTool (CallGenerate _) => "generate_image"
  | ImageTool (CallEdit _ _) => "edit_image"
  | DescribeTool _ => "describe_image"
  end.

(** The message [describe_image] sends to the chat endpoint for a file of
    the given bytes and detected type. *)
Definition describe_request (w : World) (image_data : bytes) (image_type : string)
    : ChatRequest :=
  {| chat_model := IMAGE2TEXT_MODEL w;
     chat_image_url := "data:image/" +:+ image_type +:+ ";base64,"
                       +:+ b64encode image_data;
     chat_text := "Describe this image in detail." |}.

(** Kinds of events, to count them in a trace. *)
Definition is_upstream_call (ev : event) : bool :=
  match ev with ImagesGenerate _ | ChatCompletionsCreate _ => true | _ => false end.
Definition is_fetch (ev : event) : bool :=
  match ev with RequestsGet _ => true | _ => false end.
Definition is_file_read (ev : event) : bool :=
  match ev with OpenRead _ => true | _ => false end.
Definition is_uuid_draw (ev : event) : bool :=
  match ev with Uuid4 => true | _ => false end.
Definition is_error_log (ev : event) : bool :=
  match ev with Log ERROR _ => true | _ => false end.

Fixpoint count_events (p : event → bool) (evs : list event) : nat :=
  match evs with
  | [] => 0
  | ev :: evs' => ((if p ev then 1 else 0) + count_events p evs')%nat
  end.

(** Worlds in which a collaborator fails. *)
Definition with_read_file (w : World) (answer : string → result bytes) : World :=
  {| TEXT2IMAGE_MODEL := TEXT2IMAGE_MODEL w;
     IMAGE2IMAGE_MODEL := IMAGE2IMAGE_MODEL w;
     IMAGE2TEXT_MODEL := IMAGE2TEXT_MODEL w;
     images_generate := images_generate w;
     chat_completions_create := chat_completions_create w;
     requests_get := requests_get w;
     read_file := answer;
     uuid4_hex := uuid4_hex w |}.

Definition with_requests_get (w : World) (answer : string → result bytes) : World :=
  {| TEXT2IMAGE_MODEL := TEXT2IMAGE_MODEL w;
     IMAGE2IMAGE_MODEL := IMAGE2IMAGE_MODEL w;
     IMAGE2TEXT_MODEL := IMAGE2TEXT_MODEL w;
     images_generate := images_generate w;
     chat_completions_create := chat_completions_create w;
     requests_get := answer;
     read_file := read_file w;
     uuid4_hex := uuid4_hex w |}.

Definition with_images_generate (w : World)
    (answer : GenerateRequest → result ImagesResponse) : World :=
  {| TEXT2IMAGE_MODEL := TEXT2IMAGE_MODEL w;
     IMAGE2IMAGE_MODEL := IMAGE2IMAGE_MODEL w;
     IMAGE2TEXT_MODEL := IMAGE2TEXT_MODEL w;
     images_generate := answer;
     chat_completions_create := chat_completions_create w;
     requests_get := requests_get w;
     read_file := read_file w;
     uuid4_hex := uuid4_hex w |}.

Definition with_chat (w : World)
    (answer : ChatRequest → result (list message_content)) : World :=
  {| TEXT2IMAGE_MODEL := TEXT2IMAGE_MODEL w;
     IMAGE2IMAGE_MODEL := IMAGE2IMAGE_MODEL w;
     IMAGE2TEXT_MODEL := IMAGE2TEXT_MODEL w;
     images_generate := images_generate w;
     chat_completions_create := answer;
     requests_get := requests_get w;
     read_file := read_file w;
     uuid4_hex := uuid4_hex w |}.

Definition file_not_found : exn :=
  ForeignError "FileNotFoundError" "[Errno 2] No such file or directory".
Definition connection_error : exn :=
  ForeignError "ConnectionError" "connection refused".
Definition both_forms : Image :=
  {| url := Some "http://example/x.jpg"; b64_json := Some png_1x1 |}.

Definition second_artifact : ImageContent :=
  {| type := "image";
     data := "/9j/4A==";
     mimeType := "image/jpeg";
     annotations := call_annotations (CallGenerate "a dog") "case1" |}.

(** ** Tactics *)

(** Decide the tests on a literal [quad_pos] and [pads]. *)
Ltac loop_step :=
  cbv beta zeta;
  repeat match goal with
         | |- context [?x =? ?y] =>
           let b := eval vm_compute in (x =? y) in change (x =? y) with b
         | |- context [?x <=? ?y] =>
           let b := eval vm_compute in (x <=? y) in change (x <=? y) with b
         end;
  cbv beta iota.

(** Both ways through an [except Exception] clause. *)
Ltac except_cases :=
  repeat (match goal with
          | H : is_Exception ?e = _ |- context [is_Exception ?e] => rewrite H
          | |- context [is_Exception ?e] => destruct (is_Exception e) eqn:?
          end;
          cbn -[detect_image_type b64encode String.append pretty]).

Ltac unfold_handler :=
  unfold run_image_tool, generate_image, edit_image, describe_image,
    try_reraise, mbind, M_bind, mret, M_ret, call, lift, raise, uuid4,
    logger_info, logger_warning, logger_error, emit;
  cbn -[detect_image_type b64encode String.append pretty].

Ltac trace_shape :=
  cbn -[detect_image_type b64encode String.append pretty];
  rewrite <- ?app_assoc; cbn -[detect_image_type b64encode String.append pretty];
  repeat eexists; reflexivity.

(** Every path through an image tool, after the upstream call. *)
Ltac image_tool_paths w :=
  let image := fresh "image" in
  destruct (images_generate w _) as [[[|image ?]] | ?];
  cbn -[detect_image_type b64encode String.append pretty];
  [ | destruct (truthy (url image)) eqn:?;
      [ destruct (requests_get w _) eqn:?;
        [ destruct (detect_image_type _) eqn:? | ]
      | destruct (truthy (b64_json image)) eqn:?;
        [ destruct (detect_image_type _) eqn:? | ] ]
    | ];
  cbn -[detect_image_type b64encode String.append pretty];
  except_cases.

(** Every path through [describe_image], after the file is read. *)
Ltac describe_paths w :=
  destruct (detect_image_type _) eqn:?;
  cbn -[detect_image_type b64encode String.append pretty];
  [ destruct (chat_completions_create w _) as [[|[?|?|] ?] | ?];
    cbn -[detect_image_type b64encode String.append pretty]
  | ];
  except_cases.

(** Every path through any tool. *)
Ltac tool_paths w t :=
  let c := fresh "c" in
  let image_path := fresh "image_path" in
  let prompt := fresh "prompt" in
  destruct t as [c | image_path];
  [ destruct c as [prompt | image_path prompt]; unfold run_tool; unfold_handler;
    [ image_tool_paths w
    | destruct (read_file w image_path) eqn:?;
      cbn -[detect_image_type b64encode String.append pretty];
      [ image_tool_paths w | except_cases ] ]
  | unfold run_tool; unfold_handler;
    destruct (read_file w image_path) eqn:?;
    cbn -[detect_image_type b64encode String.append pretty];
    [ describe_paths w | except_cases ] ].

(** ** The model on concrete inputs *)

Example b64encode_man : b64encode (String.list_byte_of_string "Man") = "TWFu".
Proof. reflexivity. Qed.
Example b64encode_ma : b64encode (String.list_byte_of_string "Ma") = "TWE=".
Proof. reflexivity. Qed.
Example b64encode_m : b64encode (String.list_byte_of_string "M") = "TQ==".
Proof. reflexivity. Qed.
Example b64decode_man : b64decode "TWFu" = Ok (String.list_byte_of_string "Man").
Proof. reflexivity. Qed.
Example b64decode_m : b64decode "TQ==" = Ok (String.list_byte_of_string "M").
Proof. reflexivity. Qed.
Example b64decode_skip : b64decode "T Q= =TWFu" = Ok (String.list_byte_of_string "M").
Proof. reflexivity. Qed.
Example b64decode_short : b64decode "TWFuT" =
  Raise (BinasciiError "Invalid base64-encoded string: number of data characters (5) cannot be 1 more than a multiple of 4").
Proof. reflexivity. Qed.
Example b64decode_nopad : b64decode "TWFuTQ" = Raise (BinasciiError "Incorrect padding").
Proof. reflexivity. Qed.
Example b64decode_non_ascii :
  b64decode (String (ascii_of_nat 233) "TWFu") =
  Raise (ValueError "string argument should contain only ASCII characters").
Proof. reflexivity. Qed.
Example b64encode_png_22 :
  b64encode (PNG_SIGNATURE ++ [x00; x00; x00; x0d] ++ String.list_byte_of_string "IHDR"
             ++ [x00; x00; x00; x01; x00; x00]) = png_22_bytes.
Proof. reflexivity. Qed.
Example detect_png : detect_image_type png_1x1 = Ok "png".
Proof. reflexivity. Qed.
Example detect_jpeg : detect_image_type "/9j/4AAQSkZJRgABAQAAAQABAAD/2wBDAAMC" = Ok "jpeg".
Proof. reflexivity. Qed.
Example detect_webp : detect_image_type "UklGRiQAAABXRUJQVlA4IBgAAAAwAQCdASoB" = Ok "webp".
Proof. reflexivity. Qed.
Example detect_riff_wave : detect_image_type "UklGRiQAAABXQVZFZm10IBAAAAABAAEARKwA" = Ok "png".
Proof. reflexivity. Qed.
Example detect_short_jpeg : detect_image_type "/9j/" = Ok "jpeg".
Proof. reflexivity. Qed.
Example detect_empty : detect_image_type "" = Ok "png".
Proof. reflexivity. Qed.
Example detect_malformed :
  detect_image_type "A" =
  Raise (BinasciiError "Invalid base64-encoded string: number of data characters (1) cannot be 1 more than a multiple of 4").
Proof. reflexivity. Qed.
Example generate_image_remote :
  fst (generate_image (world_answering [remote_jpeg]) "a cat" initial_state)
  = Ok remote_jpeg_artifact.
Proof. vm_compute. reflexivity. Qed.
Example generate_image_remote_trace :
  trace (snd (generate_image (world_answering [remote_jpeg]) "a cat" initial_state))
  = [Log INFO "generate_image called - prompt: a cat... - model: text2image";
     ImagesGenerate (generate_request (world_answering [remote_jpeg]) "a cat");
     Log INFO "API response received - images: 1";
     Uuid4;
     RequestsGet "http://example/x.jpg";
     Log INFO "generate_image completed - case_id: case0"].
Proof. vm_compute. reflexivity. Qed.
Example generate_image_interrupted_trace :
  generate_image
    (with_images_generate (world_answering [])
       (λ _, Raise (ForeignBaseException "KeyboardInterrupt" "")))
    "a cat" initial_state
  = (Raise (ForeignBaseException "KeyboardInterrupt" ""),
     {| trace :=
          [Log INFO "generate_image called - prompt: a cat... - model: text2image";
           ImagesGenerate (generate_request (world_answering []) "a cat")];
        uuids_drawn := 0 |}).
Proof. vm_compute. reflexivity. Qed.
Example describe_image_no_content :
  describe_image (with_chat (world_answering []) (λ _, Ok [ContentNone]))
    "/tmp/in.jpg" initial_state
  = (Raise (TypeError "object of type 'NoneType' has no len()"),
     {| trace :=
          [Log INFO "describe_image called - image_path: /tmp/in.jpg - model: image2text";
           OpenRead "/tmp/in.jpg";
           ChatCompletionsCreate
             (describe_request (world_answering []) [xff; xd8; xff; xe0] "jpeg");
           Log ERROR "describe_image failed - error: object of type 'NoneType' has no len()"];
        uuids_drawn := 0 |}).
Proof. vm_compute. reflexivity. Qed.
Example describe_image_parts :
  fst (describe_image
         (with_chat (world_answering []) (λ _, Ok [ContentParts ["a"; "cat"]]))
         "/tmp/in.jpg" initial_state)
  = Ok (ContentParts ["a"; "cat"]).
Proof. vm_compute. reflexivity. Qed.
Example edit_image_no_data_trace :
  trace (snd (edit_image (world_answering [no_data]) "/tmp/in.png" "add a hat" initial_state))
  = [Log INFO "edit_image called - image_path: /tmp/in.png, prompt: add a hat... - model: image2image";
     OpenRead "/tmp/in.png";
     ImagesGenerate (edit_request (world_answering [no_data]) [xff; xd8; xff; xe0] "add a hat");
     Log INFO "API response received - images: 1";
     Uuid4;
     Log ERROR "edit_image failed - error: No image data in response"].
Proof. vm_compute. reflexivity. Qed.

(** ** Strings, slices and prefixes *)

Lemma list_ascii_str_prefix n s :
  String.list_ascii_of_string (str_prefix n s) = take n (String.list_ascii_of_string s).
Proof.
  unfold str_prefix. revert n.
  induction s as [|c s IH]; intros [|n]; simpl; try reflexivity.
  by rewrite IH.
Qed.

Lemma length_list_ascii s :
  length (String.list_ascii_of_string s) = String.length s.
Proof. induction s as [|c s IH]; simpl; [done | by rewrite IH]. Qed.

Lemma str_prefix_ge n s : (String.length s ≤ n)%nat → str_prefix n s = s.
Proof.
  unfold str_prefix. revert n.
  induction s as [|c s IH]; intros [|n] Hn; simpl in *; try done; try lia.
  f_equal. apply IH. lia.
Qed.

Lemma str_prefix_idemp n s : str_prefix n (str_prefix n s) = str_prefix n s.
Proof.
  unfold str_prefix. revert n.
  induction s as [|c s IH]; intros [|n]; simpl; try done.
  by rewrite IH.
Qed.

Lemma startswith_prefix_of b p : startswith b p = true ↔ p `prefix_of` b.
Proof.
  revert b. induction p as [|y p IH]; intros b; simpl.
  - split; [intros _; apply prefix_nil | by destruct b].
  - destruct b as [|x b]; simpl.
    + split; [done | intros [k Hk]; discriminate].
    + rewrite andb_true_iff, IH. split.
      * intros [Hxy Hp]. apply Byte.byte_dec_bl in Hxy. subst.
        by apply prefix_cons.
      * intros [k Hk]. injection Hk as -> ->. split.
        -- apply Byte.byte_dec_lb. reflexivity.
        -- by exists k.
Qed.

Lemma slice_8_12_webp h :
  bytes_eqb (bytes_slice 8 12 h) WEBP = true ↔ spec_webp_at_8 h.
Proof.
  unfold bytes_eqb, bytes_slice, spec_webp_at_8. rewrite bool_decide_eq_true.
  do 12 (destruct h as [|? h];
         [split; [intros H; discriminate H | intros (?&?&?&?); discriminate] |]).
  cbn. unfold WEBP. cbn. split.
  - intros H. by simplify_eq.
  - intros (H1&H2&H3&H4). by simplify_eq.
Qed.

Lemma slice_out_of_range h :
  (length h < 12)%nat → bytes_eqb (bytes_slice 8 12 h) WEBP = false.
Proof.
  intros Hlen. apply not_true_is_false. rewrite slice_8_12_webp.
  intros (_&_&_&H11). apply lookup_lt_Some in H11. lia.
Qed.

Lemma startswith_short b p : (length b < length p)%nat → startswith b p = false.
Proof.
  intros Hlen. apply not_true_is_false. rewrite startswith_prefix_of.
  intros Hp. apply prefix_length in Hp. lia.
Qed.

(** ** The decoder on base64-encoded input *)

Lemma b64_char_code c :
  is_b64_char c = true →
  (ord c =? Binascii.BASE64_PAD) = false ∧
  (64 <=? Binascii.table_a2b_base64 (ord c)) = false ∧
  (ord c <? 128) = true.
Proof.
  unfold is_b64_char, Binascii.table_a2b_base64, Binascii.BASE64_PAD.
  generalize (ord c). intros z Hz.
  repeat match goal with
         | H : context [if ?b then _ else _] |- _ => destruct b eqn:?
         | |- context [if ?b then _ else _] => destruct b eqn:?
         end; lia.
Qed.

Lemma b64_char_not_pad c : is_b64_char c = true → is_pad c = false.
Proof. intros Hc. unfold is_pad. by apply b64_char_code. Qed.

Lemma pad_char_code c : is_pad c = true → ord c = 61.
Proof. unfold is_pad, Binascii.BASE64_PAD. lia. Qed.

Lemma pad_count_cons c l :
  pad_count (c :: l) = if is_pad c then S (pad_count l) else pad_count l.
Proof.
  unfold pad_count. rewrite filter_cons.
  destruct (is_pad c); by case_decide.
Qed.

(** Induction over a base64-encoded string, quad by quad. *)
Lemma is_base64_quads (P : list ascii → Prop) :
  P [] →
  (∀ a b c d,
      is_b64_char a = true → is_b64_char b = true →
      (is_b64_char c = true ∧ (is_b64_char d = true ∨ is_pad d = true))
      ∨ (is_pad c = true ∧ is_pad d = true) →
      P [a; b; c; d]) →
  (∀ a b c d rest,
      is_b64_char a = true → is_b64_char b = true →
      is_b64_char c = true → is_b64_char d = true →
      rest ≠ [] → is_base64 rest = true → P rest →
      P (a :: b :: c :: d :: rest)) →
  ∀ l, is_base64 l = true → P l.
Proof.
  intros Hnil Hlast Hquad l.
  remember (length l) as n eqn:Hn. revert l Hn.
  induction n as [n IH] using lt_wf_ind. intros l ->.
  assert (Hrec : ∀ l', (length l' < length l)%nat → is_base64 l' = true → P l').
  { intros l' Hlt. by apply (IH (length l')). }
  clear IH.
  destruct l as [|a [|b [|c [|d rest]]]]; simpl; try done.
  destruct rest as [|e rest].
  - intros H. apply andb_prop in H as [Hab H]. apply andb_prop in Hab as [Ha Hb].
    apply Hlast; [done..|].
    apply orb_prop in H as [H|H]; apply andb_prop in H as [Hc Hd].
    + left. split; [done|]. by apply orb_prop in Hd.
    + by right.
  - intros H. apply andb_prop in H as [Hab H]. apply andb_prop in Hab as [Ha Hb].
    apply andb_prop in H as [Hcd Hrest]. apply andb_prop in Hcd as [Hc Hd].
    apply Hquad; [done..|]. apply Hrec; [simpl; lia | done].
Qed.

Lemma a2b_loop_char c rest q lc p out :
  is_b64_char c = true →
  Binascii.a2b_loop (ord c :: rest) q lc p out =
    let v := Binascii.table_a2b_base64 (ord c) in
    if q =? 0 then Binascii.a2b_loop rest 1 v 0 out
    else if q =? 1 then
      Binascii.a2b_loop rest 2 (Z.land v 15) 0
        (out ++ [uchar (Z.lor (Z.shiftl lc 2) (Z.shiftr v 4))])
    else if q =? 2 then
      Binascii.a2b_loop rest 3 (Z.land v 3) 0
        (out ++ [uchar (Z.lor (Z.shiftl lc 4) (Z.shiftr v 2))])
    else Binascii.a2b_loop rest 0 0 0 (out ++ [uchar (Z.lor (Z.shiftl lc 6) v)]).
Proof.
  intros Hc. destruct (b64_char_code c Hc) as (Hpad & Hv & _).
  cbn [Binascii.a2b_loop]. rewrite Hpad. cbv zeta. by rewrite Hv.
Qed.

Lemma a2b_loop_pad c rest q lc p out :
  is_pad c = true →
  Binascii.a2b_loop (ord c :: rest) q lc p out =
    if 2 <=? q then
      if 4 <=? q + (p + 1) then Binascii.ExitDone out
      else Binascii.a2b_loop rest q lc (p + 1) out
    else Binascii.a2b_loop rest q lc p out.
Proof.
  intros Hc. cbn [Binascii.a2b_loop]. unfold is_pad in Hc. by rewrite Hc.
Qed.

(** Two data characters open a quad and give one byte, a third one a
    second byte: the state after each. *)
Lemma a2b_loop_two a b rest lc p out :
  is_b64_char a = true → is_b64_char b = true →
  ∃ x lc', Binascii.a2b_loop (ord a :: ord b :: rest) 0 lc p out =
           Binascii.a2b_loop rest 2 lc' 0 (out ++ [x]).
Proof.
  intros Ha Hb. rewrite (a2b_loop_char a) by done. loop_step.
  rewrite (a2b_loop_char b) by done. loop_step. eauto.
Qed.

Lemma a2b_loop_three a b c rest lc p out :
  is_b64_char a = true → is_b64_char b = true → is_b64_char c = true →
  ∃ x y lc', Binascii.a2b_loop (ord a :: ord b :: ord c :: rest) 0 lc p out =
             Binascii.a2b_loop rest 3 lc' 0 (out ++ [x; y]).
Proof.
  intros Ha Hb Hc. destruct (a2b_loop_two a b (ord c :: rest) lc p out) as (x & lc' & ->);
    [done..|].
  rewrite (a2b_loop_char c) by done. loop_step. rewrite <- app_assoc. eauto.
Qed.

Lemma a2b_loop_quad a b c d rest lc p out :
  is_b64_char a = true → is_b64_char b = true →
  is_b64_char c = true → is_b64_char d = true →
  ∃ x y z, Binascii.a2b_loop (ord a :: ord b :: ord c :: ord d :: rest) 0 lc p out =
           Binascii.a2b_loop rest 0 0 0 (out ++ [x; y; z]).
Proof.
  intros Ha Hb Hc Hd.
  destruct (a2b_loop_three a b c (ord d :: rest) lc p out) as (x & y & lc' & ->);
    [done..|].
  rewrite (a2b_loop_char d) by done. loop_step. rewrite <- app_assoc. eauto.
Qed.

(** On a base64-encoded string the loop never ends inside a quad, and it
    gives three bytes per quad less one per pad character. *)
Lemma a2b_loop_base64 l :
  is_base64 l = true →
  ∀ out, ∃ h,
    (Binascii.a2b_loop (ord <$> l) 0 0 0 out = Binascii.ExitEnd 0 (out ++ h)
     ∨ Binascii.a2b_loop (ord <$> l) 0 0 0 out = Binascii.ExitDone (out ++ h))
    ∧ (4 * (length h + pad_count l) = 3 * length l)%nat
    ∧ (pad_count l ≤ 2)%nat.
Proof.
  revert l. refine (is_base64_quads _ _ _ _).
  - intros out. exists []. rewrite app_nil_r. cbn. auto.
  - intros a b c d Ha Hb [[Hc [Hd|Hd]] | [Hc Hd]] out;
      rewrite !pad_count_cons, ?(b64_char_not_pad a), ?(b64_char_not_pad b) by done.
    + destruct (a2b_loop_quad a b c d [] 0 0 out) as (x & y & z & Hrun); [done..|].
      exists [x; y; z]. cbn [fmap list_fmap]. rewrite Hrun.
      rewrite !b64_char_not_pad by done. cbn. auto.
    + destruct (a2b_loop_three a b c [ord d] 0 0 out) as (x & y & lc' & Hrun); [done..|].
      exists [x; y]. cbn [fmap list_fmap]. rewrite Hrun, a2b_loop_pad by done.
      rewrite (b64_char_not_pad c), Hd by done. cbn. auto.
    + destruct (a2b_loop_two a b [ord c; ord d] 0 0 out) as (x & lc' & Hrun); [done..|].
      exists [x]. cbn [fmap list_fmap]. rewrite Hrun, !a2b_loop_pad by done.
      rewrite Hc, Hd. cbn. auto.
  - intros a b c d rest Ha Hb Hc Hd _ _ IH out.
    destruct (a2b_loop_quad a b c d (ord <$> rest) 0 0 out) as (x & y & z & Hrun);
      [done..|].
    destruct (IH (out ++ [x; y; z])) as (h & Hh & Hlen & Hpads).
    exists ([x; y; z] ++ h). cbn [fmap list_fmap]. rewrite Hrun.
    rewrite !pad_count_cons, !b64_char_not_pad by done.
    rewrite app_assoc. split; [done|]. split; [|done].
    rewrite length_app. cbn [length]. lia.
Qed.

Lemma is_base64_ascii l :
  is_base64 l = true → forallb (λ c, ord c <? 128) l = true.
Proof.
  assert (Hd : ∀ c, is_b64_char c = true → (ord c <? 128) = true)
    by (intros c Hc; by apply b64_char_code).
  assert (Hp : ∀ c, is_pad c = true → (ord c <? 128) = true)
    by (intros c Hc; apply pad_char_code in Hc; lia).
  revert l. refine (is_base64_quads _ _ _ _).
  - done.
  - intros a b c d Ha Hb [[Hc [Hd'|Hd']] | [Hc Hd']]; cbn;
      rewrite ?Hd, ?Hp by done; done.
  - intros a b c d rest Ha Hb Hc Hd' _ _ IH. cbn.
    by rewrite !Hd, IH by done.
Qed.

(** [b64decode] succeeds on every base64-encoded string. *)
Lemma b64decode_base64 s :
  base64_encoded s →
  ∃ h, b64decode s = Ok h
       ∧ (4 * (length h + pads_in_prefix (String.length s) s) = 3 * String.length s)%nat
       ∧ (pads_in_prefix (String.length s) s ≤ 2)%nat.
Proof.
  unfold base64_encoded, b64decode, pads_in_prefix. intros Hs. cbv zeta.
  rewrite is_base64_ascii by done.
  rewrite <- length_list_ascii, firstn_all.
  destruct (a2b_loop_base64 _ Hs []) as (h & Hrun & Hlen & Hpads).
  exists h. unfold Binascii.a2b_base64.
  destruct Hrun as [-> | ->]; cbn; auto.
Qed.

(** A prefix of whole quads of a base64-encoded string is base64-encoded,
    and free of pad characters when it is a proper prefix. *)
Lemma is_base64_take k l :
  is_base64 l = true → is_base64 (take (4 * k) l) = true.
Proof.
  intros Hl. revert l Hl k. apply (is_base64_quads (λ l, ∀ k, is_base64 (take (4 * k) l) = true)).
  - intros k. by rewrite take_nil.
  - intros a b c d Ha Hb Hcd [|k]; [done|].
    replace (4 * S k)%nat with (S (S (S (S (4 * k))))) by lia. cbn.
    rewrite take_nil, Ha, Hb. cbn.
    destruct Hcd as [[-> [-> | ->]] | [-> ->]]; cbn; by rewrite ?orb_true_r.
  - intros a b c d rest Ha Hb Hc Hd Hne Hrest IH [|k]; [done|].
    replace (4 * S k)%nat with (S (S (S (S (4 * k))))) by lia. cbn [take].
    specialize (IH k). cbn [is_base64]. rewrite Ha, Hb, Hc, Hd, IH.
    by destruct (take (4 * k) rest).
Qed.

Lemma pad_count_proper_prefix k l :
  is_base64 l = true → (4 * k < length l)%nat → pad_count (take (4 * k) l) = 0%nat.
Proof.
  intros Hl. revert l Hl k.
  apply (is_base64_quads
           (λ l, ∀ k, (4 * k < length l)%nat → pad_count (take (4 * k) l) = 0%nat)).
  - intros k Hk. cbn in Hk. lia.
  - intros a b c d Ha Hb Hcd [|k] Hk; [done | cbn in Hk; lia].
  - intros a b c d rest Ha Hb Hc Hd Hne Hrest IH [|k] Hk; [done|].
    replace (4 * S k)%nat with (S (S (S (S (4 * k))))) by lia. cbn [take].
    rewrite !pad_count_cons, !b64_char_not_pad by done.
    apply IH. cbn [length] in Hk. lia.
Qed.

(** ** The detector against the specification's classification *)

Lemma detect_image_type_spec s h :
  b64decode (str_prefix 32 s) = Ok h →
  ∃ fmt, detect_image_type s = Ok fmt ∧ spec_classification h fmt.
Proof.
  intros Hdec. unfold detect_image_type. rewrite Hdec.
  change PNG_SIGNATURE with spec_png_magic.
  change JPEG_SIGNATURE with spec_jpeg_magic.
  change RIFF with spec_riff.
  destruct (startswith h spec_png_magic) eqn:Hpng.
  { apply startswith_prefix_of in Hpng. eauto using spec_classification. }
  apply not_true_iff_false in Hpng. rewrite startswith_prefix_of in Hpng.
  destruct (startswith h spec_jpeg_magic) eqn:Hjpeg.
  { apply startswith_prefix_of in Hjpeg. eauto using spec_classification. }
  apply not_true_iff_false in Hjpeg. rewrite startswith_prefix_of in Hjpeg.
  destruct (startswith h spec_riff && bytes_eqb (bytes_slice 8 12 h) WEBP) eqn:Hwebp.
  - apply andb_prop in Hwebp as [Hriff Hat8].
    apply startswith_prefix_of in Hriff. apply slice_8_12_webp in Hat8.
    eauto using spec_classification.
  - exists "png". split; [done|]. apply classify_default; [done..|].
    intros [Hriff Hat8].
    apply startswith_prefix_of in Hriff. apply slice_8_12_webp in Hat8.
    by rewrite Hriff, Hat8 in Hwebp.
Qed.

Lemma spec_classification_short h fmt :
  spec_classification h fmt → (length h < 3)%nat → fmt = "png".
Proof.
  intros Hcl Hlen. destruct Hcl as [ | _ Hp | _ _ Hp _ | ]; try done;
    apply prefix_length in Hp; cbn in Hp; lia.
Qed.

Lemma spec_classification_formats h fmt :
  spec_classification h fmt → fmt = "png" ∨ fmt = "jpeg" ∨ fmt = "webp".
Proof. destruct 1; auto. Qed.

Lemma str_prefix_agree n s1 s2 :
  (∀ i, (i < n)%nat → String.get i s1 = String.get i s2) →
  str_prefix n s1 = str_prefix n s2.
Proof.
  unfold str_prefix. revert s1 s2.
  induction n as [|n IH]; intros s1 s2 Hget.
  - by destruct s1, s2.
  - destruct s1 as [|c1 s1], s2 as [|c2 s2]; simpl.
    + done.
    + specialize (Hget 0%nat ltac:(lia)). discriminate Hget.
    + specialize (Hget 0%nat ltac:(lia)). discriminate Hget.
    + pose proof (Hget 0%nat ltac:(lia)) as H0. simpl in H0. injection H0 as ->.
      f_equal. apply IH. intros i Hi. apply (Hget (S i)). lia.
Qed.

(** ** The encoder produces base64-encoded strings *)

Lemma ord_ascii_of_Z x : 0 ≤ x < 256 → ord (ascii_of_N (Z.to_N x)) = x.
Proof.
  intros Hx. unfold ord. rewrite N_ascii_embedding by lia. lia.
Qed.

Lemma table_b2a_is_b64_char v :
  0 ≤ v < 64 → is_b64_char (Binascii.table_b2a_base64 v) = true.
Proof.
  intros Hv. unfold is_b64_char, Binascii.table_b2a_base64.
  set (code := if v <? 26 then _ else _).
  assert (Hcode : 65 ≤ code ≤ 90 ∨ 97 ≤ code ≤ 122 ∨ 48 ≤ code ≤ 57
                  ∨ code = 43 ∨ code = 47).
  { unfold code.
    repeat match goal with |- context [if ?b then _ else _] => destruct b eqn:? end;
      lia. }
  clearbody code. rewrite ord_ascii_of_Z by lia.
  unfold Binascii.table_a2b_base64.
  repeat match goal with |- context [if ?b then _ else _] => destruct b eqn:? end; lia.
Qed.

Lemma land_low_bits x n : 0 ≤ n → 0 ≤ Z.land x (Z.ones n) < 2 ^ n.
Proof.
  intros Hn. rewrite Z.land_ones by done. apply Z.mod_pos_bound. lia.
Qed.

Lemma sextet_is_b64_char x :
  is_b64_char (Binascii.table_b2a_base64 (Z.land x 63)) = true.
Proof. apply table_b2a_is_b64_char, (land_low_bits x 6). lia. Qed.

Lemma last_sextet_2_is_b64_char x :
  is_b64_char (Binascii.table_b2a_base64 (Z.shiftl (Z.land x 3) 4)) = true.
Proof.
  apply table_b2a_is_b64_char. rewrite Z.shiftl_mul_pow2 by lia.
  pose proof (land_low_bits x 2 ltac:(lia)) as H. change (Z.ones 2) with 3 in H. lia.
Qed.

Lemma last_sextet_4_is_b64_char x :
  is_b64_char (Binascii.table_b2a_base64 (Z.shiftl (Z.land x 15) 2)) = true.
Proof.
  apply table_b2a_is_b64_char. rewrite Z.shiftl_mul_pow2 by lia.
  pose proof (land_low_bits x 4 ltac:(lia)) as H. change (Z.ones 4) with 15 in H. lia.
Qed.

(** One byte at each of the three [leftbits] the loop is entered with. *)
Lemma b2a_loop_0 b rest lc :
  Binascii.b2a_loop (b :: rest) lc 0 =
    let lc' := Z.land (Z.lor (Z.shiftl lc 8) (byte_val b)) (2 ^ 32 - 1) in
    Binascii.table_b2a_base64 (Z.land (Z.shiftr lc' 2) 63)
    :: Binascii.b2a_loop rest lc' 2.
Proof. reflexivity. Qed.

Lemma b2a_loop_2 b rest lc :
  Binascii.b2a_loop (b :: rest) lc 2 =
    let lc' := Z.land (Z.lor (Z.shiftl lc 8) (byte_val b)) (2 ^ 32 - 1) in
    Binascii.table_b2a_base64 (Z.land (Z.shiftr lc' 4) 63)
    :: Binascii.b2a_loop rest lc' 4.
Proof. reflexivity. Qed.

Lemma b2a_loop_4 b rest lc :
  Binascii.b2a_loop (b :: rest) lc 4 =
    let lc' := Z.land (Z.lor (Z.shiftl lc 8) (byte_val b)) (2 ^ 32 - 1) in
    Binascii.table_b2a_base64 (Z.land (Z.shiftr lc' 6) 63)
    :: Binascii.table_b2a_base64 (Z.land (Z.shiftr lc' 0) 63)
    :: Binascii.b2a_loop rest lc' 0.
Proof. reflexivity. Qed.

Lemma b2a_loop_is_base64 bin_data :
  ∀ lc, is_base64 (Binascii.b2a_loop bin_data lc 0) = true.
Proof.
  remember (length bin_data) as n eqn:Hn. revert bin_data Hn.
  induction n as [n IH] using lt_wf_ind. intros bin_data -> lc.
  destruct bin_data as [|x [|y [|z rest]]].
  - done.
  - rewrite b2a_loop_0. cbv zeta. cbn [Binascii.b2a_loop].
    change (2 =? 2) with true. cbv iota. cbn [is_base64].
    by rewrite sextet_is_b64_char, last_sextet_2_is_b64_char.
  - rewrite b2a_loop_0. cbv zeta. rewrite b2a_loop_2. cbv zeta.
    cbn [Binascii.b2a_loop]. change (4 =? 2) with false. change (4 =? 4) with true.
    cbv iota. cbn [is_base64].
    by rewrite !sextet_is_b64_char, last_sextet_4_is_b64_char.
  - rewrite b2a_loop_0. cbv zeta. rewrite b2a_loop_2. cbv zeta.
    rewrite b2a_loop_4. cbv zeta. cbn [is_base64].
    rewrite !sextet_is_b64_char. cbn [andb].
    rewrite (IH (length rest)); [by destruct (Binascii.b2a_loop rest _ 0) | cbn; lia | done].
Qed.

Lemma b64encode_base64 bin_data : base64_encoded (b64encode bin_data).
Proof.
  unfold base64_encoded, b64encode.
  rewrite String.list_ascii_of_string_of_list_ascii. apply b2a_loop_is_base64.
Qed.

(** The detector raises nothing on a base64-encoded string. *)
Lemma detect_image_type_base64 s :
  base64_encoded s → ∃ fmt, detect_image_type s = Ok fmt.
Proof.
  intros Hs.
  assert (Hp : base64_encoded (str_prefix 32 s)).
  { unfold base64_encoded. rewrite list_ascii_str_prefix. by apply (is_base64_take 8). }
  destruct (b64decode_base64 _ Hp) as (h & Hdec & _).
  destruct (detect_image_type_spec s h Hdec) as (fmt & Hfmt & _). eauto.
Qed.

(** ** Decoding what the encoder produces *)

Lemma byte_val_range b : 0 ≤ byte_val b < 256.
Proof. unfold byte_val. pose proof (Byte.to_N_bounded b). lia. Qed.

Lemma uchar_low_byte V b : Z.land V 255 = byte_val b → uchar V = b.
Proof.
  unfold uchar, byte_val. intros ->.
  rewrite N2Z.id, <- ascii_of_byte_via_N. apply byte_of_ascii_of_byte.
Qed.

Lemma table_a2b_b2a v :
  0 ≤ v < 64 →
  Binascii.table_a2b_base64 (ord (Binascii.table_b2a_base64 v)) = v.
Proof.
  intros Hv. unfold Binascii.table_b2a_base64.
  repeat match goal with |- context [if ?b then _ else _] => destruct b eqn:? end;
    (rewrite ord_ascii_of_Z by lia); unfold Binascii.table_a2b_base64;
    repeat match goal with |- context [if ?b then _ else _] => destruct b eqn:? end;
    lia.
Qed.

Lemma sextet_range x : 0 ≤ Z.land x 63 < 64.
Proof. apply (land_low_bits x 6). lia. Qed.

Lemma last_sextet_2_range x : 0 ≤ Z.shiftl (Z.land x 3) 4 < 64.
Proof.
  rewrite Z.shiftl_mul_pow2 by lia.
  pose proof (land_low_bits x 2 ltac:(lia)) as H. change (Z.ones 2) with 3 in H. lia.
Qed.

Lemma last_sextet_4_range x : 0 ≤ Z.shiftl (Z.land x 15) 2 < 64.
Proof.
  rewrite Z.shiftl_mul_pow2 by lia.
  pose proof (land_low_bits x 4 ltac:(lia)) as H. change (Z.ones 4) with 15 in H. lia.
Qed.

(** The decoding loop on the characters of given sextets: a whole quad,
    and the two padded ends. *)
Lemma a2b_loop_sextets_4 s1 s2 s3 s4 rest lc p out :
  0 ≤ s1 < 64 → 0 ≤ s2 < 64 → 0 ≤ s3 < 64 → 0 ≤ s4 < 64 →
  Binascii.a2b_loop
    (ord (Binascii.table_b2a_base64 s1) :: ord (Binascii.table_b2a_base64 s2)
     :: ord (Binascii.table_b2a_base64 s3) :: ord (Binascii.table_b2a_base64 s4)
     :: rest) 0 lc p out =
  Binascii.a2b_loop rest 0 0 0
    (out ++ [uchar (Z.lor (Z.shiftl s1 2) (Z.shiftr s2 4));
             uchar (Z.lor (Z.shiftl (Z.land s2 15) 4) (Z.shiftr s3 2));
             uchar (Z.lor (Z.shiftl (Z.land s3 3) 6) s4)]).
Proof.
  intros H1 H2 H3 H4.
  rewrite a2b_loop_char by by apply table_b2a_is_b64_char. loop_step.
  rewrite a2b_loop_char by by apply table_b2a_is_b64_char. loop_step.
  rewrite a2b_loop_char by by apply table_b2a_is_b64_char. loop_step.
  rewrite a2b_loop_char by by apply table_b2a_is_b64_char. loop_step.
  rewrite !table_a2b_b2a by done. by rewrite <- !app_assoc.
Qed.

Lemma a2b_loop_sextets_3 s1 s2 s3 lc p out :
  0 ≤ s1 < 64 → 0 ≤ s2 < 64 → 0 ≤ s3 < 64 →
  Binascii.a2b_loop
    [ord (Binascii.table_b2a_base64 s1); ord (Binascii.table_b2a_base64 s2);
     ord (Binascii.table_b2a_base64 s3); ord "="%char] 0 lc p out =
  Binascii.ExitDone
    (out ++ [uchar (Z.lor (Z.shiftl s1 2) (Z.shiftr s2 4));
             uchar (Z.lor (Z.shiftl (Z.land s2 15) 4) (Z.shiftr s3 2))]).
Proof.
  intros H1 H2 H3.
  rewrite a2b_loop_char by by apply table_b2a_is_b64_char. loop_step.
  rewrite a2b_loop_char by by apply table_b2a_is_b64_char. loop_step.
  rewrite a2b_loop_char by by apply table_b2a_is_b64_char. loop_step.
  rewrite a2b_loop_pad by done. loop_step.
  rewrite !table_a2b_b2a by done. by rewrite <- !app_assoc.
Qed.

Lemma a2b_loop_sextets_2 s1 s2 lc p out :
  0 ≤ s1 < 64 → 0 ≤ s2 < 64 →
  Binascii.a2b_loop
    [ord (Binascii.table_b2a_base64 s1); ord (Binascii.table_b2a_base64 s2);
     ord "="%char; ord "="%char] 0 lc p out =
  Binascii.ExitDone (out ++ [uchar (Z.lor (Z.shiftl s1 2) (Z.shiftr s2 4))]).
Proof.
  intros H1 H2.
  rewrite a2b_loop_char by by apply table_b2a_is_b64_char. loop_step.
  rewrite a2b_loop_char by by apply table_b2a_is_b64_char. loop_step.
  rewrite a2b_loop_pad by done. loop_step.
  rewrite a2b_loop_pad by done. loop_step.
  by rewrite !table_a2b_b2a by done.
Qed.

Lemma testbit_high x m : 0 ≤ x < 256 → 8 ≤ m → Z.testbit x m = false.
Proof.
  intros Hx Hm. rewrite <- (Z.mod_small x (2 ^ 8)) by lia.
  apply Z.mod_pow2_bits_high. lia.
Qed.

Lemma shiftr_bit a k i :
  Z.testbit (Z.shiftr a k) i = (0 <=? i) && Z.testbit a (i + k).
Proof.
  destruct (Z.leb_spec 0 i); cbn [andb].
  - apply Z.shiftr_spec. lia.
  - apply Z.testbit_neg_r. lia.
Qed.

Lemma shiftl_bit a k i :
  Z.testbit (Z.shiftl a k) i = (0 <=? i) && Z.testbit a (i - k).
Proof.
  destruct (Z.leb_spec 0 i); cbn [andb].
  - apply Z.shiftl_spec. lia.
  - apply Z.testbit_neg_r. lia.
Qed.

Lemma low_byte_eq v x :
  0 ≤ x < 256 →
  (∀ n, 0 ≤ n < 8 → Z.testbit v n = Z.testbit x n) →
  Z.land v 255 = x.
Proof.
  intros Hx Hbits. apply Z.bits_inj'. intros n Hn.
  change 255 with (Z.ones 8). rewrite Z.land_spec, Z.testbit_ones_nonneg by lia.
  destruct (Z.ltb_spec n 8).
  - rewrite andb_true_r. apply Hbits. lia.
  - rewrite andb_false_r. symmetry. by apply testbit_high.
Qed.

(** Bits of nested masks and shifts at each index of a byte: the indices
    are made literal, the closed tests computed, and the bits of a variable
    outside its range set to false. *)
Ltac bits_at_literal :=
  repeat first
    [ rewrite Z.land_spec | rewrite Z.lor_spec
    | rewrite shiftr_bit | rewrite shiftl_bit ];
  repeat match goal with
         | |- context [Z.testbit ?a] =>
           is_var a; let f := fresh "bits" in remember (Z.testbit a) as f
         end;
  cbn;
  repeat match goal with H : ?f = Z.testbit _ |- _ => subst f end;
  repeat match goal with
         | |- context [Z.testbit ?a ?i] =>
           first [ rewrite (Z.testbit_neg_r a i) by lia
                 | rewrite (testbit_high a i) by (assumption || lia) ]
         end;
  rewrite ?andb_true_r, ?andb_false_r, ?orb_false_r, ?orb_false_l;
  try reflexivity.

Ltac bitblast_byte Hx :=
  apply low_byte_eq; [exact Hx|];
  let n := fresh "n" in
  let Hn := fresh "Hn" in
  let Hcase := fresh "Hcase" in
  intros n Hn;
  assert (n = 0 ∨ n = 1 ∨ n = 2 ∨ n = 3 ∨ n = 4 ∨ n = 5 ∨ n = 6 ∨ n = 7)
    as Hcase by lia;
  clear Hn;
  repeat (destruct Hcase as [-> | Hcase]); [.. | subst n];
  bits_at_literal.

(** The three bytes the decoder rebuilds from the sextets the encoder cuts
    out of its [leftchar], whatever was left in it before. *)
Section sextets.
  Variables lc x1 x2 x3 : Z.
  Hypothesis Hx1 : 0 ≤ x1 < 256.
  Hypothesis Hx2 : 0 ≤ x2 < 256.
  Hypothesis Hx3 : 0 ≤ x3 < 256.

Lemma first_byte :
  let lc1 := Z.land (Z.lor (Z.shiftl lc 8) x1) (2 ^ 32 - 1) in
  let lc2 := Z.land (Z.lor (Z.shiftl lc1 8) x2) (2 ^ 32 - 1) in
  Z.land (Z.lor (Z.shiftl (Z.land (Z.shiftr lc1 2) 63) 2)
                (Z.shiftr (Z.land (Z.shiftr lc2 4) 63) 4)) 255 = x1.
Proof using Hx1 Hx2. cbv zeta. bitblast_byte Hx1. Qed.

Lemma first_byte_padded :
  let lc1 := Z.land (Z.lor (Z.shiftl lc 8) x1) (2 ^ 32 - 1) in
  Z.land (Z.lor (Z.shiftl (Z.land (Z.shiftr lc1 2) 63) 2)
                (Z.shiftr (Z.shiftl (Z.land lc1 3) 4) 4)) 255 = x1.
Proof using Hx1. cbv zeta. bitblast_byte Hx1. Qed.

Lemma second_byte :
  let lc1 := Z.land (Z.lor (Z.shiftl lc 8) x1) (2 ^ 32 - 1) in
  let lc2 := Z.land (Z.lor (Z.shiftl lc1 8) x2) (2 ^ 32 - 1) in
  let lc3 := Z.land (Z.lor (Z.shiftl lc2 8) x3) (2 ^ 32 - 1) in
  Z.land (Z.lor (Z.shiftl (Z.land (Z.land (Z.shiftr lc2 4) 63) 15) 4)
                (Z.shiftr (Z.land (Z.shiftr lc3 6) 63) 2)) 255 = x2.
Proof using Hx1 Hx2 Hx3. cbv zeta. bitblast_byte Hx2. Qed.

Lemma second_byte_padded :
  let lc1 := Z.land (Z.lor (Z.shiftl lc 8) x1) (2 ^ 32 - 1) in
  let lc2 := Z.land (Z.lor (Z.shiftl lc1 8) x2) (2 ^ 32 - 1) in
  Z.land (Z.lor (Z.shiftl (Z.land (Z.land (Z.shiftr lc2 4) 63) 15) 4)
                (Z.shiftr (Z.shiftl (Z.land lc2 15) 2) 2)) 255 = x2.
Proof using Hx1 Hx2. cbv zeta. bitblast_byte Hx2. Qed.

Lemma third_byte :
  let lc1 := Z.land (Z.lor (Z.shiftl lc 8) x1) (2 ^ 32 - 1) in
  let lc2 := Z.land (Z.lor (Z.shiftl lc1 8) x2) (2 ^ 32 - 1) in
  let lc3 := Z.land (Z.lor (Z.shiftl lc2 8) x3) (2 ^ 32 - 1) in
  Z.land (Z.lor (Z.shiftl (Z.land (Z.land (Z.shiftr lc3 6) 63) 3) 6)
                (Z.land (Z.shiftr lc3 0) 63)) 255 = x3.
Proof using Hx1 Hx2 Hx3. cbv zeta. bitblast_byte Hx3. Qed.

End sextets.

(** Whatever the encoder is entered with, the decoder gives the bytes back. *)
Lemma a2b_b2a_loop bin_data :
  ∀ lc out,
    Binascii.a2b_loop (ord <$> Binascii.b2a_loop bin_data lc 0) 0 0 0 out
      = Binascii.ExitEnd 0 (out ++ bin_data)
    ∨ Binascii.a2b_loop (ord <$> Binascii.b2a_loop bin_data lc 0) 0 0 0 out
      = Binascii.ExitDone (out ++ bin_data).
Proof.
  remember (length bin_data) as n eqn:Hn. revert bin_data Hn.
  induction n as [n IH] using lt_wf_ind. intros bin_data -> lc out.
  destruct bin_data as [|x [|y [|z rest]]].
  - left. cbn. by rewrite app_nil_r.
  - right. rewrite b2a_loop_0. cbv zeta. cbn [Binascii.b2a_loop].
    change (2 =? 2) with true. cbv iota. cbn [fmap list_fmap].
    rewrite a2b_loop_sextets_2 by auto using sextet_range, last_sextet_2_range.
    by rewrite (uchar_low_byte _ x)
      by (apply first_byte_padded; apply byte_val_range).
  - right. rewrite b2a_loop_0. cbv zeta. rewrite b2a_loop_2. cbv zeta.
    cbn [Binascii.b2a_loop]. change (4 =? 2) with false. change (4 =? 4) with true.
    cbv iota. cbn [fmap list_fmap].
    rewrite a2b_loop_sextets_3 by auto using sextet_range, last_sextet_4_range.
    rewrite (uchar_low_byte _ x) by (apply first_byte; apply byte_val_range).
    by rewrite (uchar_low_byte _ y)
      by (apply second_byte_padded; apply byte_val_range).
  - rewrite b2a_loop_0. cbv zeta. rewrite b2a_loop_2. cbv zeta.
    rewrite b2a_loop_4. cbv zeta. cbn [fmap list_fmap].
    rewrite a2b_loop_sextets_4 by auto using sextet_range.
    rewrite (uchar_low_byte _ x) by (apply first_byte; apply byte_val_range).
    rewrite (uchar_low_byte _ y) by (apply second_byte; apply byte_val_range).
    rewrite (uchar_low_byte _ z) by (apply third_byte; apply byte_val_range).
    replace (out ++ x :: y :: z :: rest) with ((out ++ [x; y; z]) ++ rest)
      by by rewrite <- app_assoc.
    apply (IH (length rest)); [cbn; lia | done].
Qed.

(** [b64decode] inverts [b64encode]. *)
Lemma b64decode_b64encode bin_data : b64decode (b64encode bin_data) = Ok bin_data.
Proof.
  pose proof (b64encode_base64 bin_data) as Henc.
  unfold b64decode. cbv zeta. rewrite is_base64_ascii by done.
  unfold b64encode. rewrite String.list_ascii_of_string_of_list_ascii.
  unfold Binascii.a2b_base64, Binascii.b2a_base64.
  by destruct (a2b_b2a_loop bin_data 0 []) as [-> | ->].
Qed.

(** ** The header of encoded bytes *)

(** The first [4 * k] characters of an encoding encode the first [3 * k]
    bytes. *)
Lemma b2a_loop_take k :
  ∀ bin_data lc,
    take (4 * k) (Binascii.b2a_loop bin_data lc 0)
    = Binascii.b2a_loop (take (3 * k) bin_data) lc 0.
Proof.
  induction k as [|k IH]; intros bin_data lc; [done|].
  replace (4 * S k)%nat with (S (S (S (S (4 * k))))) by lia.
  replace (3 * S k)%nat with (S (S (S (3 * k)))) by lia.
  destruct bin_data as [|x [|y [|z rest]]].
  - done.
  - cbn [take]. rewrite ?take_nil. rewrite b2a_loop_0. cbv zeta.
    cbn [Binascii.b2a_loop]. change (2 =? 2) with true. cbv iota.
    cbn [take]. by rewrite ?take_nil.
  - cbn [take]. rewrite ?take_nil. rewrite b2a_loop_0. cbv zeta.
    rewrite b2a_loop_2. cbv zeta.
    cbn [Binascii.b2a_loop]. change (4 =? 2) with false. change (4 =? 4) with true.
    cbv iota. cbn [take]. by rewrite ?take_nil.
  - cbn [take]. rewrite !b2a_loop_0. cbv zeta. rewrite !b2a_loop_2. cbv zeta.
    rewrite !b2a_loop_4. cbv zeta. cbn [take]. by rewrite IH.
Qed.

Lemma str_prefix_b64encode k bin_data :
  str_prefix (4 * k) (b64encode bin_data) = b64encode (take (3 * k) bin_data).
Proof.
  unfold b64encode, Binascii.b2a_base64. rewrite <- b2a_loop_take.
  rewrite <- (String.string_of_list_ascii_of_string (str_prefix _ _)).
  by rewrite list_ascii_str_prefix, String.list_ascii_of_string_of_list_ascii.
Qed.

(** The header the detector decodes from encoded bytes is their first 24
    bytes. *)
Lemma b64decode_header bin_data :
  b64decode (str_prefix 32 (b64encode bin_data)) = Ok (take 24 bin_data).
Proof.
  rewrite (str_prefix_b64encode 8). apply b64decode_b64encode.
Qed.

(** The signatures lie within the first 12 bytes: the classification of
    the first 24 bytes is that of the whole. *)
Lemma prefix_of_take (p h : bytes) n :
  (length p ≤ n)%nat → p `prefix_of` take n h ↔ p `prefix_of` h.
Proof.
  intros Hlen. split.
  - intros Hp. etrans; [done | apply prefix_take].
  - intros [k ->]. rewrite take_app_ge by done. by apply prefix_app_r.
Qed.

Lemma spec_webp_at_8_take h n :
  (12 ≤ n)%nat → spec_webp_at_8 (take n h) ↔ spec_webp_at_8 h.
Proof.
  intros Hn. unfold spec_webp_at_8. by rewrite !lookup_take_lt by lia.
Qed.

Lemma spec_classification_take h fmt :
  spec_classification (take 24 h) fmt ↔ spec_classification h fmt.
Proof.
  assert (Hpng : spec_png_magic `prefix_of` take 24 h ↔ spec_png_magic `prefix_of` h)
    by (apply prefix_of_take; cbn; lia).
  assert (Hjpeg : spec_jpeg_magic `prefix_of` take 24 h ↔ spec_jpeg_magic `prefix_of` h)
    by (apply prefix_of_take; cbn; lia).
  assert (Hriff : spec_riff `prefix_of` take 24 h ↔ spec_riff `prefix_of` h)
    by (apply prefix_of_take; cbn; lia).
  assert (Hwebp : spec_webp_at_8 (take 24 h) ↔ spec_webp_at_8 h)
    by (apply spec_webp_at_8_take; lia).
  split; intros Hcl; destruct Hcl.
  - apply classify_png; tauto.
  - apply classify_jpeg; tauto.
  - apply classify_webp; tauto.
  - apply classify_default; tauto.
  - apply classify_png; tauto.
  - apply classify_jpeg; tauto.
  - apply classify_webp; tauto.
  - apply classify_default; tauto.
Qed.

(** The detector on the encoding of any bytes: it raises nothing and
    classifies the bytes by their magic numbers. *)
Lemma detect_image_type_b64encode bin_data :
  ∃ fmt, detect_image_type (b64encode bin_data) = Ok fmt
         ∧ spec_classification bin_data fmt.
Proof.
  destruct (detect_image_type_spec _ _ (b64decode_header bin_data))
    as (fmt & Hfmt & Hcl).
  exists fmt. split; [done|]. by apply spec_classification_take.
Qed.

(** ** The detector: classification, determinism, short inputs *)

(** C1, counterexample: a base64-encoded string of exactly 32 characters
    that ends in padding decodes into 22 header bytes, not 24. *)
Lemma detect_image_type_header_not_24 :
  base64_encoded png_22_bytes ∧ (32 ≤ String.length png_22_bytes)%nat
  ∧ ¬ header_of_24_classified png_22_bytes.
Proof.
  split; [reflexivity|]. split; [cbn; lia|].
  intros (h & fmt & Hdec & Hlen & _).
  vm_compute in Hdec. injection Hdec as <-. discriminate Hlen.
Qed.

(** C1, amended: for every base64-encoded string of at least 32
    characters the detector decodes the first 32 characters into a header
    of 24 bytes less one per pad character among them (at most two, and
    none when the string is longer than 32 characters), and classifies
    that header by the ordered rules: the PNG signature gives "png", else
    FF D8 FF gives "jpeg", else RIFF with WEBP at offsets 8-11 gives
    "webp", else "png". *)
Theorem detect_image_type_classifies s :
  base64_encoded s → (32 ≤ String.length s)%nat →
  ∃ h fmt,
    b64decode (str_prefix 32 s) = Ok h
    ∧ (length h + pads_in_prefix 32 s = 24)%nat
    ∧ (pads_in_prefix 32 s ≤ 2)%nat
    ∧ ((32 < String.length s)%nat → length h = 24%nat)
    ∧ detect_image_type s = Ok fmt
    ∧ spec_classification h fmt.
Proof.
  intros Hs Hlen.
  assert (Hp : base64_encoded (str_prefix 32 s)).
  { unfold base64_encoded. rewrite list_ascii_str_prefix.
    by apply (is_base64_take 8). }
  assert (Hplen : String.length (str_prefix 32 s) = 32%nat).
  { rewrite <- length_list_ascii, list_ascii_str_prefix, length_take,
      length_list_ascii. lia. }
  destruct (b64decode_base64 _ Hp) as (h & Hdec & Hh & Hpads).
  rewrite Hplen in Hh, Hpads.
  assert (Hsame : pads_in_prefix 32 (str_prefix 32 s) = pads_in_prefix 32 s).
  { unfold pads_in_prefix. by rewrite list_ascii_str_prefix, take_take. }
  rewrite Hsame in Hh, Hpads.
  destruct (detect_image_type_spec s h Hdec) as (fmt & Hfmt & Hcl).
  exists h, fmt. repeat split; try done; try lia.
  intros Hlong.
  assert (pads_in_prefix 32 s = 0%nat); [|lia].
  apply (pad_count_proper_prefix 8); [done|]. rewrite length_list_ascii. lia.
Qed.

Lemma detect_image_type_classifies_witness :
  ∃ h fmt,
    b64decode (str_prefix 32 png_22_bytes) = Ok h
    ∧ (length h + pads_in_prefix 32 png_22_bytes = 24)%nat
    ∧ (pads_in_prefix 32 png_22_bytes ≤ 2)%nat
    ∧ ((32 < String.length png_22_bytes)%nat → length h = 24%nat)
    ∧ detect_image_type png_22_bytes = Ok fmt
    ∧ spec_classification h fmt.
Proof.
  apply detect_image_type_classifies; [reflexivity | vm_compute; lia].
Defined.

(** C2: the detector is a function of the first 32 characters of its
    input alone: two strings that agree on each of their first 32
    positions get the same outcome, so that, in particular, the same input
    always gets the same outcome. *)
Theorem detect_image_type_first_32 s1 s2 :
  (∀ i, (i < 32)%nat → String.get i s1 = String.get i s2) →
  detect_image_type s1 = detect_image_type s2.
Proof.
  intros Hagree. unfold detect_image_type.
  by rewrite (str_prefix_agree 32 s1 s2).
Qed.

(** Two strings that differ from their 33rd character on. *)
Lemma detect_image_type_first_32_witness :
  detect_image_type png_1x1
  = detect_image_type "iVBORw0KGgoAAAANSUhEUgAAAAEAAAAB....".
Proof.
  apply detect_image_type_first_32.
  intros i Hi.
  do 32 (destruct i as [|i]; [reflexivity|]).
  exfalso. lia.
Defined.

(** C9: a base64-encoded string of fewer than 32 characters makes the
    detector raise nothing: the whole string is decoded, into fewer than
    24 bytes; the comparison of the slice at offsets 8-11 is false on a
    header that does not reach offset 11; the header is classified by the
    same rules, and one too short for any signature is "png". *)
Theorem detect_image_type_short s :
  base64_encoded s → (String.length s < 32)%nat →
  ∃ h fmt,
    b64decode (str_prefix 32 s) = Ok h
    ∧ (length h < 24)%nat
    ∧ detect_image_type s = Ok fmt
    ∧ spec_classification h fmt
    ∧ ((length h < 12)%nat → bytes_eqb (bytes_slice 8 12 h) WEBP = false)
    ∧ ((length h < 3)%nat → fmt = "png").
Proof.
  intros Hs Hlen.
  destruct (b64decode_base64 _ Hs) as (h & Hdec & Hh & _).
  rewrite <- (str_prefix_ge 32 s) in Hdec by lia.
  destruct (detect_image_type_spec s h Hdec) as (fmt & Hfmt & Hcl).
  exists h, fmt. repeat split; try done.
  - lia.
  - apply slice_out_of_range.
  - by apply spec_classification_short.
Qed.

Lemma detect_image_type_short_witness :
  ∃ h fmt,
    b64decode (str_prefix 32 "/9g=") = Ok h
    ∧ (length h < 24)%nat
    ∧ detect_image_type "/9g=" = Ok fmt
    ∧ spec_classification h fmt
    ∧ ((length h < 12)%nat → bytes_eqb (bytes_slice 8 12 h) WEBP = false)
    ∧ ((length h < 3)%nat → fmt = "png").
Proof.
  apply detect_image_type_short; [reflexivity | vm_compute; lia].
Defined.

(** ** Running the handlers *)

Lemma run_image_tool_outcome w c st :
  fst (run_image_tool w c st) = image_tool_outcome w c (uuid4_hex w (uuids_drawn st)).
Proof.
  unfold image_tool_outcome, upstream_answer, fetched_buffer.
  destruct c as [prompt | image_path prompt]; unfold_handler.
  - fold (generate_request w prompt). image_tool_paths w; done.
  - destruct (read_file w image_path) as [image_data | e];
      cbn -[detect_image_type b64encode String.append pretty]; [|by except_cases].
    fold (edit_request w image_data prompt). image_tool_paths w; done.
Qed.

Lemma detect_image_type_formats s fmt :
  detect_image_type s = Ok fmt → fmt = "png" ∨ fmt = "jpeg" ∨ fmt = "webp".
Proof.
  unfold detect_image_type. destruct (b64decode _) as [h|e]; [|done].
  repeat case_match; intros [= <-]; auto.
Qed.

Lemma truthy_Some s : s ≠ "" → truthy (Some s) = true.
Proof. intros Hs. cbn. by apply negb_true_iff, String.eqb_neq. Qed.

(** ** The fetch step *)

(** When the first image reference has a URL and [requests.get] answers
    it, the image tool returns the body encoded, typed by the magic number
    of the body. *)
Lemma remote_image_artifact w c st image rest content :
  upstream_answer w c = Ok {| response_data := image :: rest |} →
  truthy (url image) = true →
  requests_get w (default "" (url image)) = Ok content →
  ∃ art fmt,
    fst (run_image_tool w c st) = Ok art
    ∧ data art = b64encode content
    ∧ mimeType art = "image/" +:+ fmt
    ∧ spec_classification content fmt.
Proof.
  intros Hup Hurl Hget.
  rewrite run_image_tool_outcome. unfold image_tool_outcome, fetched_buffer.
  rewrite Hup. cbn. rewrite Hurl, Hget.
  destruct (detect_image_type_b64encode content) as (fmt & -> & Hcl).
  eauto 10.
Qed.

(** C3: when the first image reference has no URL and a non-empty inline
    payload, the handler requests nothing over HTTP, runs the detector on
    the payload as it is, and the artifact it returns carries the payload
    unchanged as its data. *)
Theorem inline_payload_verbatim w c st image rest payload :
  upstream_answer w c = Ok {| response_data := image :: rest |} →
  truthy (url image) = false →
  b64_json image = Some payload → payload ≠ "" →
  (∃ evs, trace (snd (run_image_tool w c st)) = trace st ++ evs
          ∧ ∀ target, RequestsGet target ∉ evs)
  ∧ match detect_image_type payload with
    | Ok _ => ∃ art, fst (run_image_tool w c st) = Ok art ∧ data art = payload
    | Raise e => fst (run_image_tool w c st) = Raise e
    end.
Proof.
  intros Hup Hurl Hb64 Hne. split.
  - assert (Hfresh : ∀ evs : list event,
               Forall (λ ev, ∀ target, ev ≠ RequestsGet target) evs →
               ∀ target, RequestsGet target ∉ evs).
    { intros evs Hall target Hin. rewrite Forall_forall in Hall.
      by apply (Hall _ Hin target). }
    destruct c as [prompt | image_path prompt]; cbn in Hup; unfold_handler.
    + fold (generate_request w prompt). rewrite Hup.
      cbn -[detect_image_type b64encode String.append pretty].
      rewrite Hurl, Hb64, (truthy_Some payload Hne).
      destruct (detect_image_type _); except_cases; cbn; rewrite <- !app_assoc; cbn;
        (eexists; split; [reflexivity|]); apply Hfresh; by repeat constructor.
    + destruct (read_file w image_path) as [image_data | e]; [|done].
      fold (edit_request w image_data prompt). rewrite Hup.
      cbn -[detect_image_type b64encode String.append pretty].
      rewrite Hurl, Hb64, (truthy_Some payload Hne).
      destruct (detect_image_type _); except_cases; cbn; rewrite <- !app_assoc; cbn;
        (eexists; split; [reflexivity|]); apply Hfresh; by repeat constructor.
  - rewrite run_image_tool_outcome. unfold image_tool_outcome, fetched_buffer.
    rewrite Hup. cbn. rewrite Hurl, Hb64, (truthy_Some payload Hne). cbn.
    destruct (detect_image_type payload); eauto.
Qed.

Lemma inline_payload_verbatim_witness :
  (∃ evs, trace (snd (run_image_tool (world_answering [inline_png; remote_jpeg])
                        (CallGenerate "a cat") initial_state))
          = trace initial_state ++ evs
          ∧ ∀ target, RequestsGet target ∉ evs)
  ∧ match detect_image_type png_1x1 with
    | Ok _ => ∃ art, fst (run_image_tool (world_answering [inline_png; remote_jpeg])
                            (CallGenerate "a cat") initial_state) = Ok art
                     ∧ data art = png_1x1
    | Raise e => fst (run_image_tool (world_answering [inline_png; remote_jpeg])
                        (CallGenerate "a cat") initial_state) = Raise e
    end.
Proof.
  apply (inline_payload_verbatim _ _ _ inline_png [remote_jpeg] png_1x1);
    [reflexivity | reflexivity | reflexivity | discriminate].
Defined.

(** C4: when the first image reference has neither a URL nor an inline
    payload, the image tool raises [ValueError("No image data in
    response")], the NoImageData error, and returns no artifact. *)
Theorem no_image_data_in_reference w c st image rest :
  upstream_answer w c = Ok {| response_data := image :: rest |} →
  truthy (url image) = false → truthy (b64_json image) = false →
  fst (run_image_tool w c st) = Raise (ValueError "No image data in response")
  ∧ NoImageData (ValueError "No image data in response").
Proof.
  intros Hup Hurl Hb64. split; [|by right].
  rewrite run_image_tool_outcome. unfold image_tool_outcome, fetched_buffer.
  rewrite Hup. cbn. by rewrite Hurl, Hb64.
Qed.

Lemma no_image_data_in_reference_witness :
  fst (run_image_tool (world_answering [no_data]) (CallEdit "/tmp/in.png" "add a hat")
         initial_state)
  = Raise (ValueError "No image data in response")
  ∧ NoImageData (ValueError "No image data in response").
Proof.
  apply (no_image_data_in_reference _ _ _ no_data []); reflexivity.
Defined.

(** C5: when the upstream response holds no image, the image tool raises
    [ValueError("No images generated")], the NoImageData error, and
    returns no artifact. *)
Theorem no_images_generated w c st :
  upstream_answer w c = Ok {| response_data := [] |} →
  fst (run_image_tool w c st) = Raise (ValueError "No images generated")
  ∧ NoImageData (ValueError "No images generated").
Proof.
  intros Hup. split; [|by left].
  rewrite run_image_tool_outcome. unfold image_tool_outcome. by rewrite Hup.
Qed.

Lemma no_images_generated_witness :
  fst (run_image_tool (world_answering []) (CallGenerate "a cat") initial_state)
  = Raise (ValueError "No images generated")
  ∧ NoImageData (ValueError "No images generated").
Proof.
  apply no_images_generated. reflexivity.
Defined.

(** ** The artifact *)

(** C6: the MIME type of every artifact an image tool returns is "image/"
    followed by what the detector answers on the artifact's data, and so
    is one of "image/png", "image/jpeg" and "image/webp". *)
Theorem artifact_mime_type w c st art :
  fst (run_image_tool w c st) = Ok art →
  ∃ fmt, detect_image_type (data art) = Ok fmt
         ∧ mimeType art = "image/" +:+ fmt
         ∧ (mimeType art = "image/png" ∨ mimeType art = "image/jpeg"
            ∨ mimeType art = "image/webp").
Proof.
  rewrite run_image_tool_outcome. unfold image_tool_outcome.
  destruct (upstream_answer w c) as [[[|image rest]] | e]; [done | | done].
  cbn. destruct (fetched_buffer w image) as [buffer | e]; [|done].
  destruct (detect_image_type buffer) as [fmt | e] eqn:Hfmt; [|done].
  intros [= <-]. cbn. exists fmt. split; [done|]. split; [done|].
  destruct (detect_image_type_formats _ _ Hfmt) as [-> | [-> | ->]]; auto.
Qed.

Lemma artifact_mime_type_witness :
  ∃ fmt, detect_image_type (data remote_jpeg_artifact) = Ok fmt
         ∧ mimeType remote_jpeg_artifact = "image/" +:+ fmt
         ∧ (mimeType remote_jpeg_artifact = "image/png"
            ∨ mimeType remote_jpeg_artifact = "image/jpeg"
            ∨ mimeType remote_jpeg_artifact = "image/webp").
Proof.
  apply (artifact_mime_type (world_answering [remote_jpeg]) (CallGenerate "a cat")
           initial_state).
  vm_compute. reflexivity.
Defined.

(** C8: the annotations of every artifact an image tool returns map
    "prompt" to the caller's prompt; they have a "source_image" entry
    exactly when the tool is [edit_image], and it holds the caller's image
    path. *)
Theorem artifact_annotations w c st art :
  fst (run_image_tool w c st) = Ok art →
  annotations art !! "prompt" = Some (call_prompt c)
  ∧ annotations art !! "source_image" =
      match c with
      | CallGenerate _ => None
      | CallEdit image_path _ => Some image_path
      end.
Proof.
  rewrite run_image_tool_outcome. unfold image_tool_outcome.
  destruct (upstream_answer w c) as [[[|image rest]] | e]; [done | | done].
  cbn. destruct (fetched_buffer w image) as [buffer | e]; [|done].
  destruct (detect_image_type buffer) as [fmt | e]; [|done].
  intros [= <-]. cbn. destruct c as [prompt | image_path prompt]; cbn.
  - split.
    + apply lookup_insert_eq.
    + rewrite !lookup_insert_ne by done. apply lookup_empty.
  - split.
    + rewrite lookup_insert_ne by done. apply lookup_insert_eq.
    + apply lookup_insert_eq.
Qed.

Lemma artifact_annotations_witness :
  annotations edited_artifact !! "prompt" = Some "add a hat"
  ∧ annotations edited_artifact !! "source_image" = Some "/tmp/in.png".
Proof.
  apply (artifact_annotations (world_answering [inline_png])
           (CallEdit "/tmp/in.png" "add a hat") initial_state).
  vm_compute. reflexivity.
Defined.

(** C10: of the image references of an upstream response only the first
    one counts: the outcome of an image tool is the artifact built from the
    first reference (its buffer fetched, typed and annotated under the case
    id drawn in the call), or the failure of building it, and two runs
    whose upstream responses begin with the same reference, and which fetch
    and draw identifiers alike, have the same outcome whatever the
    references that follow. *)
Theorem only_first_image_used w1 w2 c st image rest1 rest2 :
  upstream_answer w1 c = Ok {| response_data := image :: rest1 |} →
  upstream_answer w2 c = Ok {| response_data := image :: rest2 |} →
  (∀ target, requests_get w1 target = requests_get w2 target) →
  (∀ k, uuid4_hex w1 k = uuid4_hex w2 k) →
  fst (run_image_tool w1 c st)
  = artifact_of_reference w1 c (uuid4_hex w1 (uuids_drawn st)) image
  ∧ fst (run_image_tool w1 c st) = fst (run_image_tool w2 c st).
Proof.
  intros Hup1 Hup2 Hget Huuid.
  rewrite !run_image_tool_outcome.
  unfold image_tool_outcome, artifact_of_reference, fetched_buffer.
  rewrite Hup1, Hup2. cbn. by rewrite Hget, Huuid.
Qed.

Lemma only_first_image_used_witness :
  fst (run_image_tool (world_answering [inline_png; remote_jpeg; no_data])
         (CallGenerate "a cat") initial_state)
  = artifact_of_reference (world_answering [inline_png; remote_jpeg; no_data])
      (CallGenerate "a cat")
      (uuid4_hex (world_answering [inline_png; remote_jpeg; no_data])
         (uuids_drawn initial_state))
      inline_png
  ∧ fst (run_image_tool (world_answering [inline_png; remote_jpeg; no_data])
           (CallGenerate "a cat") initial_state)
    = fst (run_image_tool (world_answering [inline_png])
             (CallGenerate "a cat") initial_state).
Proof.
  apply (only_first_image_used _ _ _ _ inline_png [remote_jpeg; no_data] []);
    reflexivity.
Defined.

(** ** Input handling *)

(** C7, counterexample: with an empty prompt [generate_image] calls the
    upstream endpoint and returns the artifact built from its answer. *)
Lemma empty_prompt_not_rejected :
  ¬ rejects_empty_prompt (world_answering [inline_png]).
Proof.
  intros Hrej. destruct (Hrej initial_state) as [[e He] _].
  vm_compute in He. discriminate He.
Qed.

(** C7, amended: no tool handler checks that its string arguments are
    non-empty.  After logging the call, [generate_image] calls the upstream
    endpoint with the prompt as given, the empty one included;
    [edit_image] and [describe_image] open [image_path] as given; once the
    file is read, [edit_image] calls the upstream endpoint with the prompt
    as given and [describe_image] calls it with the data URL of the
    file. *)
Theorem handlers_forward_arguments w st :
  (∀ prompt, ∃ msg evs,
      trace (snd (generate_image w prompt st)) =
        trace st ++ Log INFO msg :: ImagesGenerate (generate_request w prompt) :: evs)
  ∧ (∀ image_path prompt, ∃ msg evs,
        trace (snd (edit_image w image_path prompt st)) =
          trace st ++ Log INFO msg :: OpenRead image_path :: evs
        ∧ ∀ image_data, read_file w image_path = Ok image_data →
            ∃ evs', evs = ImagesGenerate (edit_request w image_data prompt) :: evs')
  ∧ (∀ image_path, ∃ msg evs,
        trace (snd (describe_image w image_path st)) =
          trace st ++ Log INFO msg :: OpenRead image_path :: evs
        ∧ ∀ image_data, read_file w image_path = Ok image_data →
            ∃ image_type evs',
              detect_image_type (b64encode image_data) = Ok image_type
              ∧ evs = ChatCompletionsCreate
                        {| chat_model := IMAGE2TEXT_MODEL w;
                           chat_image_url := "data:image/" +:+ image_type
                                             +:+ ";base64," +:+ b64encode image_data;
                           chat_text := "Describe this image in detail." |} :: evs').
Proof.
  repeat split.
  - intros prompt. unfold_handler. fold (generate_request w prompt).
    image_tool_paths w; trace_shape.
  - intros image_path prompt. unfold_handler.
    destruct (read_file w image_path) as [image_data | e].
    2:{ except_cases; rewrite <- ?app_assoc; cbn;
        (do 2 eexists; split; [reflexivity|]); done. }
    fold (edit_request w image_data prompt).
    assert (Hinj : ∀ d, Ok image_data = Ok d → d = image_data) by (by intros d [= ->]).
    cbn -[detect_image_type b64encode String.append pretty].
    image_tool_paths w;
      rewrite <- ?app_assoc; cbn -[detect_image_type b64encode String.append pretty];
      (do 2 eexists; split; [reflexivity|]);
      intros d Hd; rewrite (Hinj d Hd); eexists; reflexivity.
  - intros image_path. unfold_handler.
    destruct (read_file w image_path) as [image_data | e].
    2:{ except_cases; rewrite <- ?app_assoc; cbn;
        (do 2 eexists; split; [reflexivity|]); done. }
    destruct (detect_image_type_base64 _ (b64encode_base64 image_data))
      as [image_type Htype].
    rewrite Htype. cbn -[detect_image_type b64encode String.append pretty].
    destruct (chat_completions_create w _) as [[|[?|?|] ?] | ?];
      cbn -[detect_image_type b64encode String.append pretty];
      except_cases;
      rewrite <- ?app_assoc; cbn -[detect_image_type b64encode String.append pretty];
      (do 2 eexists; split; [reflexivity|]);
      intros d [= <-]; exists image_type; eexists; (split; [done | reflexivity]).
Qed.

Lemma handlers_forward_arguments_witness :
  ∃ msg evs,
    trace (snd (generate_image (world_answering [inline_png]) "" initial_state)) =
      trace initial_state
      ++ Log INFO msg
         :: ImagesGenerate (generate_request (world_answering [inline_png]) "") :: evs.
Proof.
  exact (proj1 (handlers_forward_arguments (world_answering [inline_png]) initial_state) "").
Defined.

(** ** The handlers: logging, errors and effects *)

(** X1: a tool call that fails with an instance of [Exception] ends by
    logging, at level ERROR, its name and the text of the exception it
    re-raises; one that fails with any other exception (a
    [KeyboardInterrupt], say, which [except Exception] does not catch) ends
    without an ERROR entry; one that succeeds ends by an INFO entry. *)
Theorem outcome_is_logged_last w t st :
  match fst (run_tool w t st) with
  | Raise e =>
    if is_Exception e then
      last (trace (snd (run_tool w t st)))
      = Some (Log ERROR (tool_name t +:+ " failed - error: " +:+ exn_str e))
    else
      ∀ msg, last (trace (snd (run_tool w t st))) ≠ Some (Log ERROR msg)
  | Ok _ => ∃ msg, last (trace (snd (run_tool w t st))) = Some (Log INFO msg)
  end.
Proof.
  tool_paths w t;
    first [ by rewrite last_snoc; eauto
          | intros msg; rewrite last_snoc; by intros [=] ].
Qed.

(** X2: no tool retries or repeats an effect: among the events of one
    call there is at most one upstream call, one HTTP fetch, one file read,
    one identifier drawn and one ERROR entry, also when the call fails. *)
Theorem no_effect_twice w t st :
  ∃ evs, trace (snd (run_tool w t st)) = trace st ++ evs
         ∧ (count_events is_upstream_call evs ≤ 1)%nat
         ∧ (count_events is_fetch evs ≤ 1)%nat
         ∧ (count_events is_file_read evs ≤ 1)%nat
         ∧ (count_events is_uuid_draw evs ≤ 1)%nat
         ∧ (count_events is_error_log evs ≤ 1)%nat.
Proof.
  tool_paths w t; rewrite <- ?app_assoc;
    cbn -[detect_image_type b64encode String.append pretty];
    (eexists; split; [reflexivity|]); cbn; lia.
Qed.

(** X3: when the file at [image_path] cannot be read, [edit_image] and
    [describe_image] re-raise the exception of the read, after logging it
    at level ERROR if it is an instance of [Exception] (the handlers catch
    [Exception] only), and do nothing else: no upstream call, no identifier
    drawn. *)
Theorem unreadable_file_stops_the_call w st image_path e :
  read_file w image_path = Raise e →
  (∀ prompt, ∃ msg,
      edit_image w image_path prompt st =
        (Raise e,
         {| trace := trace st ++ [Log INFO msg; OpenRead image_path]
                     ++ (if is_Exception e
                         then [Log ERROR ("edit_image failed - error: " +:+ exn_str e)]
                         else []);
            uuids_drawn := uuids_drawn st |}))
  ∧ (∃ msg,
        describe_image w image_path st =
          (Raise e,
           {| trace := trace st ++ [Log INFO msg; OpenRead image_path]
                       ++ (if is_Exception e
                           then [Log ERROR ("describe_image failed - error: "
                                            +:+ exn_str e)]
                           else []);
              uuids_drawn := uuids_drawn st |})).
Proof.
  intros Hread. split; [intros prompt|]; unfold_handler; rewrite Hread;
    cbn -[String.append]; destruct (is_Exception e);
    cbn -[String.append]; rewrite <- ?app_assoc; cbn -[String.append]; eauto.
Qed.

Lemma unreadable_file_stops_the_call_witness :
  (∀ prompt, ∃ msg,
      edit_image (with_read_file (world_answering [inline_png]) (λ _, Raise file_not_found))
        "/tmp/missing.png" prompt initial_state =
        (Raise file_not_found,
         {| trace := trace initial_state
                     ++ [Log INFO msg; OpenRead "/tmp/missing.png"]
                     ++ (if is_Exception file_not_found
                         then [Log ERROR ("edit_image failed - error: "
                                          +:+ exn_str file_not_found)]
                         else []);
            uuids_drawn := uuids_drawn initial_state |}))
  ∧ (∃ msg,
        describe_image (with_read_file (world_answering [inline_png])
                          (λ _, Raise file_not_found))
          "/tmp/missing.png" initial_state =
          (Raise file_not_found,
           {| trace := trace initial_state
                       ++ [Log INFO msg; OpenRead "/tmp/missing.png"]
                       ++ (if is_Exception file_not_found
                           then [Log ERROR ("describe_image failed - error: "
                                            +:+ exn_str file_not_found)]
                           else []);
              uuids_drawn := uuids_drawn initial_state |})).
Proof.
  apply unreadable_file_stops_the_call. reflexivity.
Defined.

(** X4: when the upstream image call raises (or, for [edit_image], the
    file read before it), the image tool re-raises that exception; it has
    then drawn no identifier and fetched nothing. *)
Theorem upstream_error_propagates w c st e :
  upstream_answer w c = Raise e →
  fst (run_image_tool w c st) = Raise e
  ∧ uuids_drawn (snd (run_image_tool w c st)) = uuids_drawn st
  ∧ ∃ evs, trace (snd (run_image_tool w c st)) = trace st ++ evs
           ∧ count_events is_fetch evs = 0%nat
           ∧ count_events is_uuid_draw evs = 0%nat.
Proof.
  intros Hup. destruct c as [prompt | image_path prompt]; cbn in Hup; unfold_handler.
  - fold (generate_request w prompt). rewrite Hup.
    cbn -[String.append]. except_cases; rewrite <- !app_assoc;
      cbn -[String.append]; eauto 10.
  - destruct (read_file w image_path) as [image_data | e'].
    + fold (edit_request w image_data prompt). rewrite Hup.
      cbn -[String.append b64encode]. except_cases; rewrite <- !app_assoc;
        cbn -[String.append b64encode]; eauto 10.
    + injection Hup as ->.
      cbn -[String.append]. except_cases; rewrite <- !app_assoc;
        cbn -[String.append]; eauto 10.
Qed.

Lemma upstream_error_propagates_witness :
  fst (run_image_tool
         (with_images_generate (world_answering []) (λ _, Raise connection_error))
         (CallGenerate "a cat") initial_state) = Raise connection_error
  ∧ uuids_drawn (snd (run_image_tool
         (with_images_generate (world_answering []) (λ _, Raise connection_error))
         (CallGenerate "a cat") initial_state)) = uuids_drawn initial_state
  ∧ ∃ evs, trace (snd (run_image_tool
         (with_images_generate (world_answering []) (λ _, Raise connection_error))
         (CallGenerate "a cat") initial_state)) = trace initial_state ++ evs
           ∧ count_events is_fetch evs = 0%nat
           ∧ count_events is_uuid_draw evs = 0%nat.
Proof.
  apply upstream_error_propagates. reflexivity.
Defined.

(** X5: a URL in the first image reference takes precedence over an
    inline payload, without fallback: when [requests.get] raises, the image
    tool re-raises that exception even if the reference also carries an
    inline payload. *)
Theorem fetch_error_no_fallback w c st image rest e :
  upstream_answer w c = Ok {| response_data := image :: rest |} →
  truthy (url image) = true →
  requests_get w (default "" (url image)) = Raise e →
  fst (run_image_tool w c st) = Raise e.
Proof.
  intros Hup Hurl Hget.
  rewrite run_image_tool_outcome. unfold image_tool_outcome, fetched_buffer.
  rewrite Hup. cbn. by rewrite Hurl, Hget.
Qed.

Lemma fetch_error_no_fallback_witness :
  fst (run_image_tool
         (with_requests_get (world_answering [both_forms]) (λ _, Raise connection_error))
         (CallGenerate "a cat") initial_state) = Raise connection_error.
Proof.
  apply (fetch_error_no_fallback _ _ _ both_forms []); reflexivity.
Defined.

(** X6: when the first image reference has a URL and [requests.get]
    answers, the image tool returns an artifact, whatever the body and
    whatever inline payload the reference also carries: its data is the
    base64 text that decodes to exactly the body, and its MIME type is
    "image/" followed by the classification of the body by its magic
    numbers. *)
Theorem remote_artifact_decodes_to_body w c st image rest content :
  upstream_answer w c = Ok {| response_data := image :: rest |} →
  truthy (url image) = true →
  requests_get w (default "" (url image)) = Ok content →
  ∃ art fmt,
    fst (run_image_tool w c st) = Ok art
    ∧ b64decode (data art) = Ok content
    ∧ mimeType art = "image/" +:+ fmt
    ∧ spec_classification content fmt.
Proof.
  intros Hup Hurl Hget.
  rewrite run_image_tool_outcome. unfold image_tool_outcome, fetched_buffer.
  rewrite Hup. cbn. rewrite Hurl, Hget.
  destruct (detect_image_type_b64encode content) as (fmt & -> & Hcl).
  eexists _, fmt. split; [reflexivity|]. cbn [data mimeType].
  split; [apply b64decode_b64encode | done].
Qed.

Lemma remote_artifact_decodes_to_body_witness :
  ∃ art fmt,
    fst (run_image_tool (world_answering [both_forms]) (CallGenerate "a cat")
           initial_state) = Ok art
    ∧ b64decode (data art) = Ok [xff; xd8; xff; xe0]
    ∧ mimeType art = "image/" +:+ fmt
    ∧ spec_classification [xff; xd8; xff; xe0] fmt.
Proof.
  apply (remote_artifact_decodes_to_body _ _ _ both_forms []); reflexivity.
Defined.

(** X7: the request [edit_image] sends upstream carries the caller's
    prompt and, as its condition image, base64 text that decodes to exactly
    the bytes read from [image_path]. *)
Theorem condition_image_round_trip w st image_path prompt image_data :
  read_file w image_path = Ok image_data →
  ∃ req condition_image,
    ImagesGenerate req ∈ trace (snd (edit_image w image_path prompt st))
    ∧ req_prompt req = prompt
    ∧ req_model req = IMAGE2IMAGE_MODEL w
    ∧ req_condition_image req = Some condition_image
    ∧ b64decode condition_image = Ok image_data.
Proof.
  intros Hread. exists (edit_request w image_data prompt), (b64encode image_data).
  split; [|by auto using b64decode_b64encode].
  unfold_handler. rewrite Hread. fold (edit_request w image_data prompt).
  image_tool_paths w; rewrite !elem_of_app, !list_elem_of_singleton; tauto.
Qed.

Lemma condition_image_round_trip_witness :
  ∃ req condition_image,
    ImagesGenerate req
      ∈ trace (snd (edit_image (world_answering [inline_png]) "/tmp/in.png"
                      "add a hat" initial_state))
    ∧ req_prompt req = "add a hat"
    ∧ req_model req = IMAGE2IMAGE_MODEL (world_answering [inline_png])
    ∧ req_condition_image req = Some condition_image
    ∧ b64decode condition_image = Ok [xff; xd8; xff; xe0].
Proof.
  apply condition_image_round_trip. reflexivity.
Defined.

(** A successful image tool call draws one identifier and files it under
    "case_id". *)
Lemma image_tool_success_state w c st art :
  fst (run_image_tool w c st) = Ok art →
  annotations art !! "case_id" = Some (uuid4_hex w (uuids_drawn st))
  ∧ uuids_drawn (snd (run_image_tool w c st)) = S (uuids_drawn st).
Proof.
  destruct c as [prompt | image_path prompt]; unfold_handler.
  - image_tool_paths w; intros [= <-]; cbn; split; try done.
    all: by rewrite lookup_insert_ne, lookup_insert_eq by done.
  - destruct (read_file w image_path) eqn:?;
      cbn -[detect_image_type b64encode String.append pretty]; [|by except_cases].
    image_tool_paths w; intros [= <-]; cbn; split; try done.
    all: by rewrite !lookup_insert_ne, lookup_insert_eq by done.
Qed.

Lemma example_uuid_inj (j k : nat) : "case" +:+ pretty j = "case" +:+ pretty k → j = k.
Proof.
  intros H. cbv [String.append] in H. injection H as H. by apply (inj pretty) in H.
Qed.

(** X8: the "case_id" annotation of a returned artifact is the identifier
    that [uuid.uuid4] yields during the call, and a successful call draws
    exactly one. *)
Theorem case_id_is_the_identifier_drawn w c st art :
  fst (run_image_tool w c st) = Ok art →
  annotations art !! "case_id" = Some (uuid4_hex w (uuids_drawn st))
  ∧ uuids_drawn (snd (run_image_tool w c st)) = S (uuids_drawn st)
  ∧ count_events is_uuid_draw
      (drop (length (trace st)) (trace (snd (run_image_tool w c st)))) = 1%nat.
Proof.
  intros Hok. destruct (image_tool_success_state w c st art Hok) as [Hid Hn].
  split; [done|]. split; [done|]. clear Hid Hn. revert Hok.
  destruct c as [prompt | image_path prompt]; unfold_handler.
  - image_tool_paths w; intros [= <-]; rewrite <- !app_assoc, drop_app_length; done.
  - destruct (read_file w image_path) eqn:?;
      cbn -[detect_image_type b64encode String.append pretty]; [|by except_cases].
    image_tool_paths w; intros [= <-]; rewrite <- !app_assoc, drop_app_length; done.
Qed.

Lemma case_id_is_the_identifier_drawn_witness :
  annotations edited_artifact !! "case_id"
  = Some (uuid4_hex (world_answering [inline_png]) (uuids_drawn initial_state))
  ∧ uuids_drawn (snd (run_image_tool (world_answering [inline_png])
                        (CallEdit "/tmp/in.png" "add a hat") initial_state))
    = S (uuids_drawn initial_state)
  ∧ count_events is_uuid_draw
      (drop (length (trace initial_state))
         (trace (snd (run_image_tool (world_answering [inline_png])
                        (CallEdit "/tmp/in.png" "add a hat") initial_state)))) = 1%nat.
Proof.
  apply case_id_is_the_identifier_drawn. vm_compute. reflexivity.
Defined.

(** X9: as long as [uuid.uuid4] never yields the same identifier twice,
    the artifacts of two successful image tool calls of one process, the
    second made at any time after the first, carry different case ids. *)
Theorem case_ids_differ w c1 c2 st1 st2 art1 art2 :
  (∀ j k, uuid4_hex w j = uuid4_hex w k → j = k) →
  fst (run_image_tool w c1 st1) = Ok art1 →
  (uuids_drawn (snd (run_image_tool w c1 st1)) ≤ uuids_drawn st2)%nat →
  fst (run_image_tool w c2 st2) = Ok art2 →
  annotations art1 !! "case_id" ≠ annotations art2 !! "case_id".
Proof.
  intros Hinj Hok1 Hlater Hok2.
  destruct (image_tool_success_state w c1 st1 art1 Hok1) as [-> Hn].
  destruct (image_tool_success_state w c2 st2 art2 Hok2) as [-> _].
  intros [= Heq]. apply Hinj in Heq. lia.
Qed.

Lemma case_ids_differ_witness :
  annotations remote_jpeg_artifact !! "case_id"
  ≠ annotations second_artifact !! "case_id".
Proof.
  apply (case_ids_differ (world_answering [remote_jpeg])
           (CallGenerate "a cat") (CallGenerate "a dog") initial_state
           (snd (run_image_tool (world_answering [remote_jpeg])
                   (CallGenerate "a cat") initial_state))).
  - intros j k. apply example_uuid_inj.
  - vm_compute. reflexivity.
  - lia.
  - vm_compute. reflexivity.
Defined.

(** X10: once the file is read, [describe_image] never fails on its own
    detection step: it sends the chat endpoint one message whose image is a
    data URL of the file's bytes, typed by their magic numbers, and returns
    the content of the first choice unchanged, be it text or a list of
    parts; a first choice whose content is [None] is a [TypeError] (of
    [len]), an empty list of choices is an [IndexError], and an exception
    of the endpoint is re-raised. *)
Theorem describe_image_outcome w st image_path image_data :
  read_file w image_path = Ok image_data →
  ∃ image_type,
    spec_classification image_data image_type
    ∧ ChatCompletionsCreate (describe_request w image_data image_type)
        ∈ trace (snd (describe_image w image_path st))
    ∧ fst (describe_image w image_path st) =
        match chat_completions_create w (describe_request w image_data image_type) with
        | Ok (ContentNone :: _) =>
          Raise (TypeError "object of type 'NoneType' has no len()")
        | Ok (description :: _) => Ok description
        | Ok [] => Raise (IndexError "list index out of range")
        | Raise e => Raise e
        end.
Proof.
  intros Hread.
  destruct (detect_image_type_b64encode image_data) as (image_type & Htype & Hcl).
  exists image_type. split; [done|].
  unfold_handler. rewrite Hread, Htype.
  cbn -[detect_image_type b64encode String.append pretty].
  fold (describe_request w image_data image_type).
  destruct (chat_completions_create w _) as [[|[text|parts|] rest] | e];
    cbn -[detect_image_type b64encode String.append pretty];
    except_cases;
    (split; [|done]); rewrite !elem_of_app, !list_elem_of_singleton; tauto.
Qed.

Lemma describe_image_outcome_witness :
  ∃ image_type,
    spec_classification [xff; xd8; xff; xe0] image_type
    ∧ ChatCompletionsCreate
        (describe_request (world_answering []) [xff; xd8; xff; xe0] image_type)
        ∈ trace (snd (describe_image (world_answering []) "/tmp/in.jpg" initial_state))
    ∧ fst (describe_image (world_answering []) "/tmp/in.jpg" initial_state) =
        match chat_completions_create (world_answering [])
                (describe_request (world_answering []) [xff; xd8; xff; xe0] image_type)
        with
        | Ok (ContentNone :: _) =>
          Raise (TypeError "object of type 'NoneType' has no len()")
        | Ok (description :: _) => Ok description
        | Ok [] => Raise (IndexError "list index out of range")
        | Raise e => Raise e
        end.
Proof.
  apply describe_image_outcome. reflexivity.
Defined.

(** ** The detector: further inputs *)

(** A run of alphabet characters leaves the decoding loop by its end, with
    as many characters pending as the length exceeds a multiple of four. *)
Lemma a2b_loop_data_run l :
  forallb is_b64_char l = true →
  ∀ out, ∃ h,
    Binascii.a2b_loop (ord <$> l) 0 0 0 out
      = Binascii.ExitEnd (Z.of_nat (length l `mod` 4)) (out ++ h)
    ∧ length h = (3 * (length l `div` 4) + (length l `mod` 4 - 1))%nat.
Proof.
  remember (length l) as n eqn:Hn. revert l Hn.
  induction n as [n IH] using lt_wf_ind. intros l -> Hl out.
  destruct l as [|a [|b [|c [|d rest]]]]; cbn [forallb] in Hl;
    repeat (apply andb_prop in Hl as [? Hl]).
  - exists []. by rewrite app_nil_r.
  - exists []. cbn [fmap list_fmap]. rewrite a2b_loop_char by done. loop_step.
    by rewrite app_nil_r.
  - destruct (a2b_loop_two a b [] 0 0 out) as (x & lc' & Hrun); [done..|].
    exists [x]. cbn [fmap list_fmap]. by rewrite Hrun.
  - destruct (a2b_loop_three a b c [] 0 0 out) as (x & y & lc' & Hrun); [done..|].
    exists [x; y]. cbn [fmap list_fmap]. by rewrite Hrun.
  - destruct (a2b_loop_quad a b c d (ord <$> rest) 0 0 out) as (x & y & z & Hrun);
      [done..|].
    destruct (IH (length rest) ltac:(cbn; lia) rest eq_refl Hl (out ++ [x; y; z]))
      as (h & Hh & Hlen).
    exists ([x; y; z] ++ h). cbn [fmap list_fmap]. rewrite Hrun, Hh, app_assoc.
    replace (length (a :: b :: c :: d :: rest)) with (length rest + 1 * 4)%nat
      by (cbn; lia).
    rewrite Nat.Div0.mod_add, Nat.div_add by lia. split; [done|].
    rewrite length_app, Hlen. cbn [length]. lia.
Qed.

Lemma b64_chars_ascii l :
  forallb is_b64_char l = true → forallb (λ c, ord c <? 128) l = true.
Proof.
  induction l as [|c l IH]; [done|]. cbn. intros [Hc Hl]%andb_prop.
  rewrite IH by done. by destruct (b64_char_code c Hc) as (_ & _ & ->).
Qed.

(** X11: on the base64 encoding of any bytes the detector raises nothing:
    the header it decodes is the first 24 bytes, and it answers "jpeg"
    exactly for bytes that start with FF D8 FF, "webp" exactly for bytes
    that start with RIFF and hold WEBP at offsets 8-11, and "png" for all
    others, whether they are a PNG file or not. *)
Theorem detector_on_encoded_bytes bin_data :
  b64decode (str_prefix 32 (b64encode bin_data)) = Ok (take 24 bin_data)
  ∧ ∃ fmt,
      detect_image_type (b64encode bin_data) = Ok fmt
      ∧ (fmt = "jpeg" ↔ spec_jpeg_magic `prefix_of` bin_data)
      ∧ (fmt = "webp" ↔ spec_riff `prefix_of` bin_data ∧ spec_webp_at_8 bin_data)
      ∧ (fmt = "png" ↔ ¬ spec_jpeg_magic `prefix_of` bin_data
                        ∧ ¬ (spec_riff `prefix_of` bin_data ∧ spec_webp_at_8 bin_data)).
Proof.
  split; [apply b64decode_header|].
  destruct (detect_image_type_b64encode bin_data) as (fmt & Hfmt & Hcl).
  exists fmt. split; [done|].
  assert (Hpj : spec_png_magic `prefix_of` bin_data →
                ¬ spec_jpeg_magic `prefix_of` bin_data).
  { intros [k ->] [k' Hk']. discriminate Hk'. }
  assert (Hpr : spec_png_magic `prefix_of` bin_data →
                ¬ spec_riff `prefix_of` bin_data).
  { intros [k ->] [k' Hk']. discriminate Hk'. }
  assert (Hjr : spec_jpeg_magic `prefix_of` bin_data →
                ¬ spec_riff `prefix_of` bin_data).
  { intros [k ->] [k' Hk']. discriminate Hk'. }
  destruct Hcl; (split; [|split]); (split; [try done|]); try tauto.
  all: intros; exfalso; tauto.
Qed.

(** X12: the detector reads the first 32 characters only and validates
    nothing beyond them: a string of at least 32 characters whose first 32
    are alphabet characters is decoded into a header of 24 bytes and
    classified, whatever follows them, base64 or not. *)
Theorem detector_reads_no_further s :
  (32 ≤ String.length s)%nat →
  forallb is_b64_char (take 32 (String.list_ascii_of_string s)) = true →
  ∃ h fmt,
    b64decode (str_prefix 32 s) = Ok h ∧ length h = 24%nat
    ∧ detect_image_type s = Ok fmt ∧ spec_classification h fmt.
Proof.
  intros Hlen Hchars.
  assert (Hl : length (take 32 (String.list_ascii_of_string s)) = 32%nat)
    by (rewrite length_take, length_list_ascii; lia).
  destruct (a2b_loop_data_run _ Hchars []) as (h & Hrun & Hh).
  rewrite Hl in Hrun, Hh.
  assert (Hdec : b64decode (str_prefix 32 s) = Ok h).
  { unfold b64decode. cbv zeta. rewrite list_ascii_str_prefix.
    rewrite b64_chars_ascii by done. unfold Binascii.a2b_base64. by rewrite Hrun. }
  destruct (detect_image_type_spec s h Hdec) as (fmt & Hfmt & Hcl).
  exists h, fmt. by repeat split.
Qed.

Lemma detector_reads_no_further_witness :
  ∃ h fmt,
    b64decode (str_prefix 32 "iVBORw0KGgoAAAANSUhEUgAAAAEAAAAB<<not base64>>") = Ok h
    ∧ length h = 24%nat
    ∧ detect_image_type "iVBORw0KGgoAAAANSUhEUgAAAAEAAAAB<<not base64>>" = Ok fmt
    ∧ spec_classification h fmt.
Proof.
  apply detector_reads_no_further; [vm_compute; lia | reflexivity].
Defined.

(** X13: a character outside ASCII among the first 32 makes the detector
    raise [ValueError], before any decoding. *)
Theorem detector_rejects_non_ascii s :
  existsb (λ c, 128 <=? ord c) (take 32 (String.list_ascii_of_string s)) = true →
  detect_image_type s
  = Raise (ValueError "string argument should contain only ASCII characters").
Proof.
  intros Hex. unfold detect_image_type, b64decode. cbv zeta.
  rewrite list_ascii_str_prefix.
  assert (forallb (λ c, ord c <? 128) (take 32 (String.list_ascii_of_string s)) = false)
    as ->; [|done].
  induction (take 32 (String.list_ascii_of_string s)) as [|c l IH]; [done|].
  cbn in *. destruct (Z.leb_spec 128 (ord c)), (Z.ltb_spec (ord c) 128);
    try lia; cbn in *; auto.
Qed.

Lemma detector_rejects_non_ascii_witness :
  detect_image_type (String (ascii_of_nat 233) png_1x1)
  = Raise (ValueError "string argument should contain only ASCII characters").
Proof.
  apply detector_rejects_non_ascii. reflexivity.
Defined.

(** X14: base64 text without its padding is rejected when it is shorter
    than 32 characters: on a string of fewer than 32 alphabet characters
    whose length is not a multiple of four the detector raises
    [binascii.Error], "Incorrect padding" or, for one character too many,
    the message that counts the data characters. *)
Theorem detector_rejects_short_unpadded s :
  (String.length s < 32)%nat →
  forallb is_b64_char (String.list_ascii_of_string s) = true →
  (String.length s `mod` 4 ≠ 0)%nat →
  detect_image_type s = Raise (BinasciiError
    (if (String.length s `mod` 4 =? 1)%nat then
       "Invalid base64-encoded string: number of data characters ("
       +:+ pretty (Z.of_nat (String.length s))
       +:+ ") cannot be 1 more than a multiple of 4"
     else "Incorrect padding")).
Proof.
  intros Hlen Hchars Hmod.
  unfold detect_image_type. rewrite str_prefix_ge by lia.
  unfold b64decode. cbv zeta. rewrite b64_chars_ascii by done.
  destruct (a2b_loop_data_run _ Hchars []) as (h & Hrun & Hh).
  unfold Binascii.a2b_base64. rewrite Hrun. rewrite length_list_ascii in *.
  cbn [app].
  pose proof (Nat.mod_upper_bound (String.length s) 4 ltac:(lia)) as Hub.
  pose proof (Nat.div_mod_eq (String.length s) 4) as Hdm.
  destruct (Nat.eqb_spec (String.length s `mod` 4) 1) as [H1 | H1].
  - rewrite H1. cbn [Z.of_nat Pos.of_succ_nat Z.eqb Pos.eqb].
    rewrite H1 in Hh, Hdm.
    replace (Z.of_nat (length h) `div` 3 * 4 + 1) with (Z.of_nat (String.length s));
      [done|].
    rewrite Hh. replace (Z.of_nat (3 * (String.length s `div` 4) + (1 - 1)))
      with (Z.of_nat (String.length s `div` 4) * 3) by lia.
    rewrite Z.div_mul by lia. lia.
  - destruct (Z.eqb_spec (Z.of_nat (String.length s `mod` 4)) 0); [lia|].
    destruct (Z.eqb_spec (Z.of_nat (String.length s `mod` 4)) 1); [lia|]. done.
Qed.

Lemma detector_rejects_short_unpadded_witness :
  detect_image_type "/9j/4A" = Raise (BinasciiError
    (if (String.length "/9j/4A" `mod` 4 =? 1)%nat then
       "Invalid base64-encoded string: number of data characters ("
       +:+ pretty (Z.of_nat (String.length "/9j/4A"))
       +:+ ") cannot be 1 more than a multiple of 4"
     else "Incorrect padding")).
Proof.
  apply detector_rejects_short_unpadded; [vm_compute; lia | reflexivity | vm_compute; lia].
Defined.

(** ** Start-up *)

Lemma truthy_default o : truthy o = true → o = Some (default "" o) ∧ default "" o ≠ "".
Proof.
  destruct o as [s|]; [|done]. cbn. intros Hs%negb_true_iff%String.eqb_neq. done.
Qed.

(** [setup_logging] once the shared directory is known to exist, by what
    opening the two log files does. *)
Lemma setup_logging_in_shared_dir h existing :
  truthy (environ h "AGENT_SHARED_DIR") = true →
  path_exists h (default "" (environ h "AGENT_SHARED_DIR")) = true →
  setup_logging h existing =
    match try_log_locations h (handlers_clear (setLevel INFO existing))
            [shared_log h (default "" (environ h "AGENT_SHARED_DIR")); tmp_log h] []
    with
    | (inl e, evs) => (inl e, evs)
    | (inr (Some logger), evs) => (inr logger, evs)
    | (inr None, evs) =>
      (inr (handlers_clear (setLevel INFO existing)),
       evs ++ [StderrPrint ("Failed to setup file logging in "
                            +:+ default "" (environ h "AGENT_SHARED_DIR")
                            +:+ " or /tmp/")])
    end.
Proof.
  intros Hdir Hexists. unfold setup_logging. cbv zeta. by rewrite Hdir, Hexists.
Qed.

(** X15: without its shared directory the module cannot be imported, and
    the fallback location is not tried: when AGENT_SHARED_DIR is unset or
    empty, or names a path that does not exist, the module body raises
    [RuntimeError] before any log file is opened and before anything else
    is set up. *)
Theorem shared_dir_is_mandatory h existing :
  truthy (environ h "AGENT_SHARED_DIR") = false
  ∨ path_exists h (default "" (environ h "AGENT_SHARED_DIR")) = false →
  ∃ msg, setup_logging h existing = (inl (RuntimeError msg), [])
         ∧ module_body h existing = (inl (RuntimeError msg), []).
Proof.
  intros Hdir. unfold module_body, setup_logging. cbv zeta.
  destruct (truthy (environ h "AGENT_SHARED_DIR")); cbn [negb]; [|eauto].
  destruct Hdir as [Hdir | ->]; [done|]. cbn [negb]. eauto.
Qed.

Lemma shared_dir_is_mandatory_witness :
  ∃ msg,
    setup_logging (with_environ (example_host (λ _, Opened)) (λ _, Some "")) stale_logger
    = (inl (RuntimeError msg), [])
    ∧ module_body (with_environ (example_host (λ _, Opened)) (λ _, Some "")) stale_logger
      = (inl (RuntimeError msg), []).
Proof.
  apply shared_dir_is_mandatory. left. reflexivity.
Defined.

(** X16: whatever handlers the logger held before and whatever opening
    the log files does, a logger that [setup_logging] returns is at level
    INFO and holds at most one handler, on one of the two log locations of
    the process; the start-up record was written through that handler and
    nowhere else, and a logger without handler comes with one message on
    stderr. *)
Theorem setup_logging_returns_one_handler h existing logger evs :
  setup_logging h existing = (inr logger, evs) →
  logger_level logger = Some INFO
  ∧ ((∃ log_file msg,
         logger_handlers logger = [log_file]
         ∧ (log_file = shared_log h (default "" (environ h "AGENT_SHARED_DIR"))
            ∨ log_file = tmp_log h)
         ∧ file_handler h log_file = Opened
         ∧ last evs = Some (LogRecord log_file INFO msg))
     ∨ (logger_handlers logger = []
        ∧ ∃ msg, last evs = Some (StderrPrint msg))).
Proof.
  unfold setup_logging. cbv zeta.
  destruct (truthy (environ h "AGENT_SHARED_DIR")); cbn [negb]; [|done].
  destruct (path_exists h _); cbn [negb]; [|done].
  fold (shared_log h (default "" (environ h "AGENT_SHARED_DIR"))). fold (tmp_log h).
  cbn [try_log_locations].
  destruct (file_handler h (shared_log h _)) eqn:Hshared; cbn [app].
  - intros [= <- <-]. split; [done|]. left. eauto 10.
  - destruct (file_handler h (tmp_log h)) eqn:Htmp; cbn [app]; intros [= <- <-];
      (split; [done|]).
    + left. eauto 10.
    + right. eauto.
  - done.
Qed.

Lemma setup_logging_returns_one_handler_witness :
  logger_level tmp_logger = Some INFO
  ∧ ((∃ log_file msg,
         logger_handlers tmp_logger = [log_file]
         ∧ (log_file = shared_log tmp_only_host
                         (default "" (environ tmp_only_host "AGENT_SHARED_DIR"))
            ∨ log_file = tmp_log tmp_only_host)
         ∧ file_handler tmp_only_host log_file = Opened
         ∧ last tmp_events = Some (LogRecord log_file INFO msg))
     ∨ (logger_handlers tmp_logger = []
        ∧ ∃ msg, last tmp_events = Some (StderrPrint msg))).
Proof.
  apply (setup_logging_returns_one_handler _ stale_logger). vm_compute. reflexivity.
Defined.

(** X17: unless the log file of the shared directory is the log file
    under [/tmp] itself (AGENT_SHARED_DIR being [/tmp]), the one under
    [/tmp] is a fallback only: whenever [setup_logging] tries to open it,
    opening the log file in the shared directory has raised an [OSError]
    just before. *)
Theorem tmp_log_only_after_shared_failed h existing :
  tmp_log h ≠ shared_log h (default "" (environ h "AGENT_SHARED_DIR")) →
  FileHandlerCreate (tmp_log h) ∈ snd (setup_logging h existing) →
  (∃ e, file_handler h (shared_log h (default "" (environ h "AGENT_SHARED_DIR")))
        = RaisedOSError e)
  ∧ ∃ evs, snd (setup_logging h existing) =
           FileHandlerCreate (shared_log h (default "" (environ h "AGENT_SHARED_DIR")))
           :: FileHandlerCreate (tmp_log h) :: evs.
Proof.
  intros Hne. unfold setup_logging. cbv zeta.
  destruct (truthy (environ h "AGENT_SHARED_DIR")); cbn [negb snd];
    [|by intros ?%elem_of_nil].
  destruct (path_exists h _); cbn [negb snd]; [|by intros ?%elem_of_nil].
  fold (shared_log h (default "" (environ h "AGENT_SHARED_DIR"))). fold (tmp_log h).
  cbn [try_log_locations].
  destruct (file_handler h (shared_log h _)) eqn:Hshared; cbn [app snd].
  - rewrite !elem_of_cons, elem_of_nil. intros [[= ?] | [[= ?] | []]]. done.
  - destruct (file_handler h (tmp_log h)); cbn [app snd]; eauto.
  - rewrite !elem_of_cons, elem_of_nil. intros [[= ?] | []]. done.
Qed.

Lemma tmp_log_only_after_shared_failed_witness :
  (∃ e, file_handler tmp_only_host
          (shared_log tmp_only_host
             (default "" (environ tmp_only_host "AGENT_SHARED_DIR")))
        = RaisedOSError e)
  ∧ ∃ evs, snd (setup_logging tmp_only_host stale_logger) =
           FileHandlerCreate
             (shared_log tmp_only_host
                (default "" (environ tmp_only_host "AGENT_SHARED_DIR")))
           :: FileHandlerCreate (tmp_log tmp_only_host) :: evs.
Proof.
  apply tmp_log_only_after_shared_failed.
  - vm_compute. discriminate.
  - vm_compute. apply list_elem_of_In. simpl. tauto.
Defined.

(** X18: losing both log files is not fatal: when the shared directory
    exists, both log locations raise an [OSError], the two constructors
    raise nothing and the three model identifiers are set, the module body
    completes with a logger that has no handler at all, after one message
    on stderr; nothing the handlers log is then kept. *)
Theorem log_failure_is_not_fatal h existing e1 e2 v1 v2 v3 :
  truthy (environ h "AGENT_SHARED_DIR") = true →
  path_exists h (default "" (environ h "AGENT_SHARED_DIR")) = true →
  file_handler h (shared_log h (default "" (environ h "AGENT_SHARED_DIR")))
    = RaisedOSError e1 →
  file_handler h (tmp_log h) = RaisedOSError e2 →
  new_fastmcp h = None → new_together h = None →
  environ h "TOGETHER_IMAGE2IMAGE_MODEL_ID" = Some v1 →
  environ h "TOGETHER_IMAGE2TEXT_MODEL_ID" = Some v2 →
  environ h "TOGETHER_TEXT2IMAGE_MODEL_ID" = Some v3 →
  module_body h existing =
    (inr {| settings_logger := {| logger_level := Some INFO; logger_handlers := [] |};
            settings_image2image := v1;
            settings_image2text := v2;
            settings_text2image := v3 |},
     [FileHandlerCreate (shared_log h (default "" (environ h "AGENT_SHARED_DIR")));
      FileHandlerCreate (tmp_log h);
      StderrPrint ("Failed to setup file logging in "
                   +:+ default "" (environ h "AGENT_SHARED_DIR") +:+ " or /tmp/")]).
Proof.
  intros Hdir Hexists Hshared Htmp Hmcp Hclient H1 H2 H3.
  unfold module_body. rewrite setup_logging_in_shared_dir by done.
  cbn [try_log_locations]. rewrite Hshared, Htmp. cbn [app].
  unfold environ_get. by rewrite Hmcp, Hclient, H1, H2, H3.
Qed.

Lemma log_failure_is_not_fatal_witness :
  module_body no_log_host stale_logger =
    (inr {| settings_logger := {| logger_level := Some INFO; logger_handlers := [] |};
            settings_image2image := "image2image";
            settings_image2text := "image2text";
            settings_text2image := "text2image" |},
     [FileHandlerCreate
        (shared_log no_log_host (default "" (environ no_log_host "AGENT_SHARED_DIR")));
      FileHandlerCreate (tmp_log no_log_host);
      StderrPrint ("Failed to setup file logging in "
                   +:+ default "" (environ no_log_host "AGENT_SHARED_DIR")
                   +:+ " or /tmp/")]).
Proof.
  apply (log_failure_is_not_fatal _ _ permission_denied permission_denied);
    reflexivity.
Defined.

(** X19: when [setup_logging] has returned and the two constructors have
    raised nothing, a model identifier that the environment lacks makes the
    module body raise [KeyError] for the first one missing, in the order
    image-to-image, image-to-text, text-to-image; the events of the import
    are then exactly those of [setup_logging]. *)
Theorem missing_model_id_is_key_error h existing logger evs key :
  setup_logging h existing = (inr logger, evs) →
  new_fastmcp h = None → new_together h = None →
  first_missing h = Some key →
  module_body h existing = (inl (KeyError key), evs).
Proof.
  intros Hsetup Hmcp Hclient Hmiss. unfold module_body.
  rewrite Hsetup, Hmcp, Hclient. unfold environ_get.
  unfold first_missing, model_keys in Hmiss. cbn [List.find] in Hmiss.
  destruct (environ h "TOGETHER_IMAGE2IMAGE_MODEL_ID"); [|by injection Hmiss as <-].
  destruct (environ h "TOGETHER_IMAGE2TEXT_MODEL_ID"); [|by injection Hmiss as <-].
  destruct (environ h "TOGETHER_TEXT2IMAGE_MODEL_ID"); [done|by injection Hmiss as <-].
Qed.

Lemma missing_model_id_is_key_error_witness :
  module_body missing_key_host stale_logger
  = (inl (KeyError "TOGETHER_IMAGE2TEXT_MODEL_ID"), shared_events).
Proof.
  apply (missing_model_id_is_key_error _ _ shared_logger); reflexivity.
Defined.

(** Membership in the events of one call, event by event. *)
Ltac in_new_events :=
  rewrite <- ?app_assoc, drop_app_length;
  cbn -[detect_image_type b64encode String.append pretty];
  let Hin := fresh "Hin" in
  intros Hin;
  repeat (apply elem_of_cons in Hin as [Hin | Hin]; [try discriminate Hin|]);
  try (by apply elem_of_nil in Hin);
  try (injection Hin as ->; reflexivity).

(** X20: the model identifiers are read once, by the module body, and are
    not validated: after a successful import every upstream call of
    [generate_image] names the value of TOGETHER_TEXT2IMAGE_MODEL_ID, every
    one of [edit_image] that of TOGETHER_IMAGE2IMAGE_MODEL_ID and every one
    of [describe_image] that of TOGETHER_IMAGE2TEXT_MODEL_ID, as the
    environment held them at import, empty or not. *)
Theorem handlers_use_imported_model_ids h existing cfg evs :
  module_body h existing = (inr cfg, evs) →
  ∃ image2image image2text text2image,
    environ h "TOGETHER_IMAGE2IMAGE_MODEL_ID" = Some image2image
    ∧ environ h "TOGETHER_IMAGE2TEXT_MODEL_ID" = Some image2text
    ∧ environ h "TOGETHER_TEXT2IMAGE_MODEL_ID" = Some text2image
    ∧ ∀ w st,
        (∀ prompt req,
            ImagesGenerate req
              ∈ drop (length (trace st))
                  (trace (snd (generate_image (world_of_settings cfg w) prompt st))) →
            req_model req = text2image)
        ∧ (∀ image_path prompt req,
              ImagesGenerate req
                ∈ drop (length (trace st))
                    (trace (snd (edit_image (world_of_settings cfg w)
                                   image_path prompt st))) →
              req_model req = image2image)
        ∧ (∀ image_path req,
              ChatCompletionsCreate req
                ∈ drop (length (trace st))
                    (trace (snd (describe_image (world_of_settings cfg w)
                                   image_path st))) →
              chat_model req = image2text).
Proof.
  unfold module_body, environ_get.
  destruct (setup_logging h existing) as [[e | logger] evs0]; [done|].
  destruct (new_fastmcp h); [done|]. destruct (new_together h); [done|].
  destruct (environ h "TOGETHER_IMAGE2IMAGE_MODEL_ID") as [v1|]; [|done].
  destruct (environ h "TOGETHER_IMAGE2TEXT_MODEL_ID") as [v2|]; [|done].
  destruct (environ h "TOGETHER_TEXT2IMAGE_MODEL_ID") as [v3|]; [|done].
  intros [= <- <-]. exists v1, v2, v3. repeat split; try done.
  - intros prompt req. unfold_handler.
    image_tool_paths w; in_new_events.
  - intros image_path prompt req. unfold_handler.
    destruct (read_file w image_path);
      cbn -[detect_image_type b64encode String.append pretty];
      [|except_cases; in_new_events].
    image_tool_paths w; in_new_events.
  - intros image_path req. unfold_handler.
    destruct (read_file w image_path);
      cbn -[detect_image_type b64encode String.append pretty];
      [|except_cases; in_new_events].
    describe_paths w; in_new_events.
Qed.

Lemma handlers_use_imported_model_ids_witness :
  ∃ image2image image2text text2image,
    environ (example_host (λ _, Opened)) "TOGETHER_IMAGE2IMAGE_MODEL_ID" = Some image2image
    ∧ environ (example_host (λ _, Opened)) "TOGETHER_IMAGE2TEXT_MODEL_ID" = Some image2text
    ∧ environ (example_host (λ _, Opened)) "TOGETHER_TEXT2IMAGE_MODEL_ID" = Some text2image
    ∧ ∀ w st,
        (∀ prompt req,
            ImagesGenerate req
              ∈ drop (length (trace st))
                  (trace (snd (generate_image (world_of_settings example_settings w)
                                 prompt st))) →
            req_model req = text2image)
        ∧ (∀ image_path prompt req,
              ImagesGenerate req
                ∈ drop (length (trace st))
                    (trace (snd (edit_image (world_of_settings example_settings w)
                                   image_path prompt st))) →
              req_model req = image2image)
        ∧ (∀ image_path req,
              ChatCompletionsCreate req
                ∈ drop (length (trace st))
                    (trace (snd (describe_image (world_of_settings example_settings w)
                                   image_path st))) →
              chat_model req = image2text).
Proof.
  apply (handlers_use_imported_model_ids _ stale_logger _ shared_events).
  vm_compute. reflexivity.
Defined.
